(** * Paste-to-upload plugin (src/main.ts): uploader and paste handler

    A shallow embedding of [ImageUploadService.uploadImage],
    [PasteUploadPlugin.paste_handle], [PasteUploadPlugin.insert_image] and
    [showError], together with the part of the JavaScript runtime they rely
    on (string conversion, loose equality with a number, property reads,
    [JSON.parse]).

    Conventions.
    - A JavaScript string is modelled by its UTF-8 encoding, as a Rocq
      [string] (one character per byte).  [Buffer.from(s)] is then the byte
      list of [s], and a response chunk is the text it decodes to.
    - A JavaScript number is kept as the exact decimal [m * 10^e] it was
      read from (or NaN, or an infinity).  Comparisons are made on the
      binary64 value it rounds to ([Number.value]); [Number.toString]
      prints the decimal itself, which is the JavaScript text for an
      integer below [2^53] and for a decimal of at most 15 significant
      digits in the normal range.
    - Texts of the messages of the errors the engine itself throws, and
      the URL parser, are engine-defined: they are fields of the [Engine]
      class.
    - [https.request] is taken to accept the options it is given; what the
      network then does is an input ([Exchange]). *)

From Stdlib Require Import String Ascii List ZArith NArith Lia Bool DecimalString.
From Stdlib.Strings Require Import Byte.
Import ListNotations.
Open Scope string_scope.
Set Warnings "-register-all".

(* ================================================================== *)
(** ** Strings *)

Module Str.

Definition of_codes (l : list nat) : string :=
  fold_right (fun n s => String (ascii_of_nat n) s) EmptyString l.

(** The double quote character and the CR LF pair. *)
Definition dq : ascii := ascii_of_nat 34.
Definition dquote : string := String dq EmptyString.
Definition backslash : ascii := ascii_of_nat 92.
Definition CRLF : string := of_codes [13; 10].

(** [js s] is [s] with every apostrophe replaced by a double quote: it is
    used to write JSON texts readably in examples. *)
Fixpoint js (s : string) : string :=
  match s with
  | EmptyString => EmptyString
  | String c r => String (if (c =? "'")%char then dq else c) (js r)
  end.

Fixpoint rev_append (s acc : string) : string :=
  match s with
  | EmptyString => acc
  | String c r => rev_append r (String c acc)
  end.

Definition rev (s : string) : string := rev_append s EmptyString.

Definition is_empty (s : string) : bool :=
  match s with EmptyString => true | String _ _ => false end.

(** [strip_prefix p s] is [Some r] when [s = p ++ r]. *)
Fixpoint strip_prefix (p s : string) : option string :=
  match p, s with
  | EmptyString, _ => Some s
  | String a p', String b s' =>
      if (a =? b)%char then strip_prefix p' s' else None
  | String _ _, EmptyString => None
  end.

(** [String.prototype.startsWith]. *)
Definition startsWith (s p : string) : bool :=
  match strip_prefix p s with Some _ => true | None => false end.

(** [String.prototype.includes]. *)
Fixpoint includes (s p : string) : bool :=
  startsWith s p ||
  match s with
  | EmptyString => false
  | String _ r => includes r p
  end.

Fixpoint span (p : ascii -> bool) (s : string) : string * string :=
  match s with
  | EmptyString => (EmptyString, EmptyString)
  | String c r =>
      if p c then let (a, b) := span p r in (String c a, b)
      else (EmptyString, s)
  end.

Fixpoint forallb (p : ascii -> bool) (s : string) : bool :=
  match s with
  | EmptyString => true
  | String c r => p c && forallb p r
  end.

Fixpoint repeat (c : ascii) (n : nat) : string :=
  match n with
  | O => EmptyString
  | S k => String c (repeat c k)
  end.

Fixpoint first_strip (table : list string) (s : string) : option string :=
  match table with
  | [] => None
  | p :: t =>
      match strip_prefix p s with
      | Some r => Some r
      | None => first_strip t s
      end
  end.

(** Remove leading occurrences of the strings of [table]. *)
Fixpoint strip_all (fuel : nat) (table : list string) (s : string) : string :=
  match fuel with
  | O => s
  | S f =>
      match first_strip table s with
      | Some r => strip_all f table r
      | None => s
      end
  end.

End Str.

(* ================================================================== *)
(** ** Numbers *)

Module Number.

Open Scope Z_scope.

(** An exact decimal [m * 10^e], NaN, or a signed infinity. *)
Inductive number : Type :=
| NaN
| Infinity (negative : bool)
| Dec (m e : Z).

Definition of_Z (z : Z) : number := Dec z 0.

(** The Number value a decimal stands for: NaN, an infinity, or the
    binary64 value [M * 2^E] in canonical form ([M = 0 = E], or
    [2^52 <= |M| < 2^53] and [-1074 <= E <= 971], or [|M| < 2^52] and
    [E = -1074]). *)
Inductive binary64 : Type :=
| B64_NaN
| B64_Infinity (negative : bool)
| B64_finite (M E : Z).

(** [floor (log2 (p / q))], for positive [p] and [q]. *)
Definition floor_log2_ratio (p q : Z) : Z :=
  let t := Z.log2 p - Z.log2 q in
  if (if 0 <=? t then q * 2 ^ t <=? p else q <=? p * 2 ^ (- t))
  then t else t - 1.

(** The binary64 value nearest to [p / q], for positive [p] and [q]: 53
    significant bits, ties to the even significand, gradual underflow,
    overflow to infinity. *)
Definition nearest_binary64 (negative : bool) (p q : Z) : binary64 :=
  let E := Z.max (floor_log2_ratio p q - 52) (-1074) in
  let num := if 0 <=? E then p else p * 2 ^ (- E) in
  let den := if 0 <=? E then q * 2 ^ E else q in
  let n := num / den in
  let r := num mod den in
  let n' := if (den <? 2 * r) || ((den =? 2 * r) && Z.odd n) then n + 1 else n in
  let M := if n' =? 2 ^ 53 then 2 ^ 52 else n' in
  let E' := if n' =? 2 ^ 53 then E + 1 else E in
  if 971 <? E' then B64_Infinity negative
  else if M =? 0 then B64_finite 0 0
  else B64_finite (if negative then - M else M) E'.

(** The Number value of a decimal (the rounding of a numeric literal). *)
Definition value (x : number) : binary64 :=
  match x with
  | NaN => B64_NaN
  | Infinity negative => B64_Infinity negative
  | Dec m e =>
      if m =? 0 then B64_finite 0 0
      else if 0 <=? e then nearest_binary64 (m <? 0) (Z.abs m * 10 ^ e) 1
      else nearest_binary64 (m <? 0) (Z.abs m) (10 ^ (- e))
  end.

(** Number::equal, on the Number values: NaN equals nothing, and the two
    zeros are equal. *)
Definition equal (x y : number) : bool :=
  match value x, value y with
  | B64_finite M1 E1, B64_finite M2 E2 => (M1 =? M2) && (E1 =? E2)
  | B64_Infinity a, B64_Infinity b => Bool.eqb a b
  | _, _ => false
  end.

Definition digits_of (n : N) : string :=
  NilEmpty.string_of_uint (N.to_uint n).

Fixpoint drop_zeros (s : string) : string :=
  match s with
  | String c r => if (c =? "0")%char then drop_zeros r else s
  | EmptyString => EmptyString
  end.

(** Number::toString(x, 10): with [s] the [k] significant digits of [x]
    and [x = 0.s * 10^n], the four layouts of ECMA-262. *)
Definition toString (x : number) : string :=
  match x with
  | NaN => "NaN"
  | Infinity neg => if neg then "-Infinity" else "Infinity"
  | Dec m e =>
      if m =? 0 then "0" else
      let all := digits_of (Z.to_N (Z.abs m)) in
      let s := Str.rev (drop_zeros (Str.rev all)) in
      let k := Z.of_nat (String.length s) in
      let n := Z.of_nat (String.length all) + e in
      let body :=
        if (k <=? n) && (n <=? 21) then
          s ++ Str.repeat "0" (Z.to_nat (n - k))
        else if (0 <? n) && (n <=? 21) then
          substring 0 (Z.to_nat n) s ++ "." ++
          substring (Z.to_nat n) (Z.to_nat (k - n)) s
        else if (-6 <? n) && (n <=? 0) then
          "0." ++ Str.repeat "0" (Z.to_nat (- n)) ++ s
        else
          let ex := n - 1 in
          let exs := (if ex <? 0 then "-" else "+") ++
                     digits_of (Z.to_N (Z.abs ex)) in
          if k =? 1 then s ++ "e" ++ exs
          else substring 0 1 s ++ "." ++
               substring 1 (Z.to_nat (k - 1)) s ++ "e" ++ exs in
      (if m <? 0 then "-" else EmptyString) ++ body
  end.

(** *** Reading digits *)

Definition code (c : ascii) : Z := Z.of_nat (nat_of_ascii c).

Definition is_digit (c : ascii) : bool := (48 <=? code c) && (code c <=? 57).

(** Value of a digit in a base up to 16, [None] for another character. *)
Definition digit_value (base : Z) (c : ascii) : option Z :=
  let n := code c in
  let v := if (48 <=? n) && (n <=? 57) then n - 48
           else if (97 <=? n) && (n <=? 102) then n - 87
           else if (65 <=? n) && (n <=? 70) then n - 55
           else 16 in
  if v <? base then Some v else None.

Definition is_base_digit (base : Z) (c : ascii) : bool :=
  match digit_value base c with Some _ => true | None => false end.

Fixpoint digits_value (base acc : Z) (s : string) : Z :=
  match s with
  | EmptyString => acc
  | String c r =>
      match digit_value base c with
      | Some d => digits_value base (acc * base + d) r
      | None => acc
      end
  end.

(** An optional exponent part [e[+-]digits] filling the whole of [s]. *)
Definition exponent_to_end (s : string) : option Z :=
  match s with
  | EmptyString => Some 0
  | String c r =>
      if (c =? "e")%char || (c =? "E")%char then
        let '(neg, d) :=
          match r with
          | String c' r' =>
              if (c' =? "-")%char then (true, r')
              else if (c' =? "+")%char then (false, r')
              else (false, r)
          | EmptyString => (false, r)
          end in
        if Str.is_empty d || negb (Str.forallb is_digit d) then None
        else Some (if neg then - digits_value 10 0 d else digits_value 10 0 d)
      else None
  end.

(** StrUnsignedDecimalLiteral, the sign already read. *)
Definition unsigned_decimal (neg : bool) (s : string) : number :=
  if (s =? "Infinity")%string then Infinity neg else
  let (ip, r1) := Str.span is_digit s in
  let '(dot, fp, r2) :=
    match r1 with
    | String c r =>
        if (c =? ".")%char then
          let (fp, r2) := Str.span is_digit r in (true, fp, r2)
        else (false, EmptyString, r1)
    | EmptyString => (false, EmptyString, r1)
    end in
  if Str.is_empty ip && Str.is_empty fp then NaN else
  match exponent_to_end r2 with
  | None => NaN
  | Some ex =>
      let m := digits_value 10 0 (ip ++ fp) in
      Dec (if neg then - m else m) (ex - Z.of_nat (String.length fp))
  end.

(** [0x], [0o] and [0b] literals (NonDecimalIntegerLiteral); [None] when
    [s] has no such prefix. *)
Definition non_decimal (s : string) : option number :=
  match s with
  | String z (String p d) =>
      if (z =? "0")%char then
        let base :=
          if (p =? "x")%char || (p =? "X")%char then 16
          else if (p =? "o")%char || (p =? "O")%char then 8
          else if (p =? "b")%char || (p =? "B")%char then 2
          else 0 in
        if base =? 0 then None
        else if Str.is_empty d || negb (Str.forallb (is_base_digit base) d)
             then Some NaN
             else Some (Dec (digits_value base 0 d) 0)
      else None
  | _ => None
  end.

(** StrWhiteSpaceChar: WhiteSpace and LineTerminator, in UTF-8. *)
Definition StrWhiteSpace : list string :=
  map Str.of_codes
    ([ [9]; [10]; [11]; [12]; [13]; [32];
      [194; 160]; [225; 154; 128];
      [226; 128; 128]; [226; 128; 129]; [226; 128; 130]; [226; 128; 131];
      [226; 128; 132]; [226; 128; 133]; [226; 128; 134]; [226; 128; 135];
      [226; 128; 136]; [226; 128; 137]; [226; 128; 138];
      [226; 128; 168]; [226; 128; 169]; [226; 128; 175];
      [226; 129; 159]; [227; 128; 128]; [239; 187; 191] ])%nat.

Definition trim (s : string) : string :=
  let s1 := Str.strip_all (String.length s) StrWhiteSpace s in
  Str.rev (Str.strip_all (String.length s1) (map Str.rev StrWhiteSpace)
                         (Str.rev s1)).

(** StringToNumber. *)
Definition ofString (s : string) : number :=
  let t := trim s in
  match t with
  | EmptyString => Dec 0 0
  | String c r =>
      match non_decimal t with
      | Some n => n
      | None =>
          if (c =? "-")%char then unsigned_decimal true r
          else if (c =? "+")%char then unsigned_decimal false r
          else unsigned_decimal false t
      end
  end.

End Number.

(* ================================================================== *)
(** ** JavaScript values, exceptions and conversions *)

Module JS.

Import Number.

(** An [Error] object: its [name] ("Error", "TypeError", ...) and
    [message] properties. *)
Record Error : Type := mkError { error_name : string; error_message : string }.

(** The values the plugin handles: what [JSON.parse] builds, [undefined]
    (an absent property) and [Error] objects. *)
Inductive value : Type :=
| VUndefined
| VNull
| VBool (b : bool)
| VNum (n : number)
| VStr (s : string)
| VArr (elements : list value)
| VObj (members : list (string * value))
| VError (e : Error).

(** A computation that returns or throws. *)
Inductive exc (A : Type) : Type :=
| Ok (a : A)
| Throw (e : Error).
Arguments Ok {A} a.
Arguments Throw {A} e.

Definition bind {A B : Type} (c : exc A) (k : A -> exc B) : exc B :=
  match c with
  | Ok a => k a
  | Throw e => Throw e
  end.

Notation "x <- c ;; k" := (bind c (fun x => k))
  (at level 61, c at next level, right associativity).

(** [new URL(s)]: the three properties the plugin reads. *)
Record URL : Type := mkURL { hostname : string; port : string; pathname : string }.

Inductive TypeError_kind : Type :=
| CannotRead (base : value) (key : string)
    (* reading property [key] of [undefined] or [null] *)
| CannotConvert.
    (* an object with no callable [toString] / [valueOf] *)

(** What is engine-defined: the message texts of the errors the engine
    throws, and the URL parser. *)
Class Engine : Type := {
  SyntaxError_message : string -> string;
  TypeError_message : TypeError_kind -> string;
  URL_new : string -> exc URL
}.

(** [new Error(message)]. *)
Definition new_Error (message : string) : Error := mkError "Error" message.

(** [v instanceof Error]. *)
Definition instanceof_Error (v : value) : bool :=
  match v with VError _ => true | _ => false end.

(** Error.prototype.toString. *)
Definition Error_toString (e : Error) : string :=
  if Str.is_empty (error_message e) then error_name e
  else if Str.is_empty (error_name e) then error_message e
  else error_name e ++ ": " ++ error_message e.

(** Own property [key] of an object built by [JSON.parse]: the last
    member with that name wins. *)
Definition own_property (key : string) (members : list (string * value))
  : option value :=
  fold_left (fun acc kv => if (fst kv =? key)%string then Some (snd kv) else acc)
            members None.

Section WithEngine.

Context {engine : Engine}.

Definition SyntaxError (text : string) : Error :=
  mkError "SyntaxError" (SyntaxError_message text).

Definition TypeError (k : TypeError_kind) : Error :=
  mkError "TypeError" (TypeError_message k).

(** ToString, which for an object is ToPrimitive: an array is joined
    with commas ([undefined] and [null] elements give the empty
    string); an object built by [JSON.parse] inherits
    Object.prototype.toString unless it has an own (hence not callable)
    "toString" member, in which case the conversion throws. *)
Fixpoint ToString (v : value) : exc string :=
  match v with
  | VUndefined => Ok "undefined"
  | VNull => Ok "null"
  | VBool b => Ok (if b then "true" else "false")
  | VNum n => Ok (Number.toString n)
  | VStr s => Ok s
  | VArr l =>
      (fix join (first : bool) (l : list value) : exc string :=
         match l with
         | [] => Ok EmptyString
         | x :: r =>
             sx <- match x with
                   | VUndefined | VNull => Ok EmptyString
                   | _ => ToString x
                   end ;;
             sr <- join false r ;;
             Ok ((if first then EmptyString else ",") ++ sx ++ sr)
         end) true l
  | VObj members =>
      match own_property "toString" members with
      | Some _ => Throw (TypeError CannotConvert)
      | None => Ok "[object Object]"
      end
  | VError e => Ok (Error_toString e)
  end.

(** [x == n] for a number [n] (IsLooselyEqual). *)
Definition loose_eq_number (x : value) (n : number) : exc bool :=
  match x with
  | VUndefined | VNull => Ok false
  | VBool b => Ok (Number.equal (of_Z (if b then 1 else 0)) n)
  | VNum m => Ok (Number.equal m n)
  | VStr s => Ok (Number.equal (Number.ofString s) n)
  | VArr _ | VObj _ | VError _ =>
      s <- ToString x ;; Ok (Number.equal (Number.ofString s) n)
  end.

(** The property read [o.key], for a [key] that no built-in prototype
    defines (the plugin reads "status_code", "image" and "url"). *)
Definition Get (o : value) (key : string) : exc value :=
  match o with
  | VUndefined | VNull => Throw (TypeError (CannotRead o key))
  | VObj members =>
      match own_property key members with
      | Some v => Ok v
      | None => Ok VUndefined
      end
  | _ => Ok VUndefined
  end.

End WithEngine.

(* ---------------------------------------------------------------- *)
(** *** JSON.parse *)

Module Json.

Definition is_ws (c : ascii) : bool :=
  (c =? " ")%char || (c =? ascii_of_nat 9)%char ||
  (c =? ascii_of_nat 10)%char || (c =? ascii_of_nat 13)%char.

Fixpoint skip_ws (s : string) : string :=
  match s with
  | String c r => if is_ws c then skip_ws r else s
  | EmptyString => EmptyString
  end.

(** A character of a string literal: a byte of the text, or the UTF-16
    code unit of a four-digit hexadecimal escape. *)
Inductive unit16 : Type :=
| Raw (c : ascii)
| Esc (u : N).

Definition utf8 (cp : N) : string :=
  let b (n : N) := ascii_of_N n in
  (if cp <? 128 then String (b cp) EmptyString
   else if cp <? 2048 then
     String (b (192 + cp / 64)) (String (b (128 + cp mod 64)) EmptyString)
   else if cp <? 65536 then
     String (b (224 + cp / 4096))
       (String (b (128 + (cp / 64) mod 64))
          (String (b (128 + cp mod 64)) EmptyString))
   else
     String (b (240 + cp / 262144))
       (String (b (128 + (cp / 4096) mod 64))
          (String (b (128 + (cp / 64) mod 64))
             (String (b (128 + cp mod 64)) EmptyString))))%N.

Definition is_high (u : N) : bool := ((55296 <=? u) && (u <=? 56319))%N.
Definition is_low (u : N) : bool := ((56320 <=? u) && (u <=? 57343))%N.

(** UTF-8 text of a literal; an escaped high surrogate followed by an
    escaped low surrogate is one code point. *)
Fixpoint encode_units (l : list unit16) : string :=
  match l with
  | [] => EmptyString
  | Raw c :: r => String c (encode_units r)
  | Esc hi :: r =>
      match r with
      | Esc lo :: r' =>
          if is_high hi && is_low lo then
            utf8 (65536 + (hi - 55296) * 1024 + (lo - 56320))%N
            ++ encode_units r'
          else utf8 hi ++ encode_units r
      | _ => utf8 hi ++ encode_units r
      end
  end.

Inductive lex_state : Type :=
| LNormal
| LEscape
| LHex (k : nat) (acc : N).   (* [S k] hex digits still to read *)

Definition escape_char (c : ascii) : option ascii :=
  if (c =? Str.dq)%char || (c =? Str.backslash)%char || (c =? "/")%char then Some c
  else if (c =? "b")%char then Some (ascii_of_nat 8)
  else if (c =? "f")%char then Some (ascii_of_nat 12)
  else if (c =? "n")%char then Some (ascii_of_nat 10)
  else if (c =? "r")%char then Some (ascii_of_nat 13)
  else if (c =? "t")%char then Some (ascii_of_nat 9)
  else None.

(** The rest of a string literal, after its opening quote: the units
    read (in reverse in [out]) and what follows the closing quote. *)
Fixpoint lex_string (st : lex_state) (out : list unit16) (s : string)
  : option (list unit16 * string) :=
  match s with
  | EmptyString => None
  | String c r =>
      match st with
      | LNormal =>
          if (c =? Str.dq)%char then Some (List.rev out, r)
          else if (c =? Str.backslash)%char then lex_string LEscape out r
          else if (Number.code c <? 32)%Z then None
          else lex_string LNormal (Raw c :: out) r
      | LEscape =>
          if (c =? "u")%char then lex_string (LHex 3 0) out r
          else match escape_char c with
               | Some c' => lex_string LNormal (Raw c' :: out) r
               | None => None
               end
      | LHex k acc =>
          match Number.digit_value 16 c with
          | None => None
          | Some d =>
              let acc' := (acc * 16 + Z.to_N d)%N in
              match k with
              | O => lex_string LNormal (Esc acc' :: out) r
              | S k' => lex_string (LHex k' acc') out r
              end
          end
      end
  end.

Definition string_literal (s : string) : option (string * string) :=
  match lex_string LNormal [] s with
  | Some (units, r) => Some (encode_units units, r)
  | None => None
  end.

Definition fraction (s : string) : option (string * string) :=
  match s with
  | String c r =>
      if (c =? ".")%char then
        let (fp, r2) := Str.span Number.is_digit r in
        if Str.is_empty fp then None else Some (fp, r2)
      else Some (EmptyString, s)
  | EmptyString => Some (EmptyString, s)
  end.

Definition exponent (s : string) : option (Z * string) :=
  match s with
  | String c r =>
      if (c =? "e")%char || (c =? "E")%char then
        let '(neg, r1) :=
          match r with
          | String c' r' =>
              if (c' =? "-")%char then (true, r')
              else if (c' =? "+")%char then (false, r')
              else (false, r)
          | EmptyString => (false, r)
          end in
        let (d, r2) := Str.span Number.is_digit r1 in
        if Str.is_empty d then None
        else
          let v := Number.digits_value 10 0 d in
          Some (if neg then (- v)%Z else v, r2)
      else Some (0%Z, s)
  | EmptyString => Some (0%Z, s)
  end.

(** A JSON number: an optional minus sign, an integer part with no
    superfluous leading zero, an optional fraction and an optional
    exponent. *)
Definition number_literal (s : string) : option (number * string) :=
  let '(neg, s1) :=
    match s with
    | String c r => if (c =? "-")%char then (true, r) else (false, s)
    | EmptyString => (false, s)
    end in
  let (ip, r1) := Str.span Number.is_digit s1 in
  if Str.is_empty ip then None
  else if (1 <? String.length ip)%nat && Str.startsWith ip "0" then None
  else
    match fraction r1 with
    | None => None
    | Some (fp, r2) =>
        match exponent r2 with
        | None => None
        | Some (ex, r3) =>
            let m := Number.digits_value 10 0 (ip ++ fp) in
            Some (Dec (if neg then - m else m)
                      (ex - Z.of_nat (String.length fp)), r3)
        end
    end.

Inductive parsed (A : Type) : Type :=
| POk (a : A) (rest : string)
| PErr
| PFuel.
Arguments POk {A} a rest.
Arguments PErr {A}.
Arguments PFuel {A}.

Definition keyword (kw : string) (v : value) (s : string) : parsed value :=
  match Str.strip_prefix kw s with
  | Some r => POk v r
  | None => PErr
  end.

(** Recursive descent.  [parse_value] reads one value, leading white
    space included; [parse_elements] reads the elements of an array up
    to its closing bracket, [parse_members] the members of an object up
    to its closing brace ([acc] holds, in reverse, what was read). *)
Fixpoint parse_value (fuel : nat) (s : string) {struct fuel} : parsed value :=
  match fuel with
  | O => PFuel
  | S f =>
      match skip_ws s with
      | EmptyString => PErr
      | String c r =>
          if (c =? "{")%char then
            match skip_ws r with
            | EmptyString => PErr
            | String c' r' =>
                if (c' =? "}")%char then POk (VObj []) r'
                else parse_members f [] (String c' r')
            end
          else if (c =? "[")%char then
            match skip_ws r with
            | EmptyString => PErr
            | String c' r' =>
                if (c' =? "]")%char then POk (VArr []) r'
                else parse_elements f [] (String c' r')
            end
          else if (c =? Str.dq)%char then
            match string_literal r with
            | Some (str, r') => POk (VStr str) r'
            | None => PErr
            end
          else if (c =? "t")%char then keyword "true" (VBool true) (String c r)
          else if (c =? "f")%char then keyword "false" (VBool false) (String c r)
          else if (c =? "n")%char then keyword "null" VNull (String c r)
          else
            match number_literal (String c r) with
            | Some (n, r') => POk (VNum n) r'
            | None => PErr
            end
      end
  end
with parse_elements (fuel : nat) (acc : list value) (s : string)
       {struct fuel} : parsed value :=
  match fuel with
  | O => PFuel
  | S f =>
      match parse_value f s with
      | POk v r =>
          match skip_ws r with
          | EmptyString => PErr
          | String c r' =>
              if (c =? ",")%char then parse_elements f (v :: acc) r'
              else if (c =? "]")%char then POk (VArr (List.rev (v :: acc))) r'
              else PErr
          end
      | PErr => PErr
      | PFuel => PFuel
      end
  end
with parse_members (fuel : nat) (acc : list (string * value)) (s : string)
       {struct fuel} : parsed value :=
  match fuel with
  | O => PFuel
  | S f =>
      match skip_ws s with
      | EmptyString => PErr
      | String c r =>
          if (c =? Str.dq)%char then
            match string_literal r with
            | None => PErr
            | Some (key, r1) =>
                match skip_ws r1 with
                | EmptyString => PErr
                | String c1 r2 =>
                    if (c1 =? ":")%char then
                      match parse_value f r2 with
                      | POk v r3 =>
                          match skip_ws r3 with
                          | EmptyString => PErr
                          | String c3 r4 =>
                              if (c3 =? ",")%char then
                                parse_members f ((key, v) :: acc) r4
                              else if (c3 =? "}")%char then
                                POk (VObj (List.rev ((key, v) :: acc))) r4
                              else PErr
                          end
                      | PErr => PErr
                      | PFuel => PFuel
                      end
                    else PErr
                end
            end
          else PErr
      end
  end.

(** Every call of the parser reads a character at least every second
    step, so this much fuel is enough ([parse_fuel_enough] below). *)
Definition fuel_for (text : string) : nat := 2 * String.length text + 1.

Definition parse_text (text : string) : parsed value :=
  match parse_value (fuel_for text) text with
  | POk v rest => if Str.is_empty (skip_ws rest) then POk v EmptyString else PErr
  | r => r
  end.

End Json.

(** [JSON.parse(text)]. *)
Definition JSON_parse {engine : Engine} (text : string) : exc value :=
  match Json.parse_text text with
  | Json.POk v _ => Ok v
  | _ => Throw (SyntaxError text)
  end.

End JS.

(* ================================================================== *)
(** ** The plugin *)

Import JS.

(** *** Data *)

(** interface MyPluginSettings *)
Record MyPluginSettings : Type := {
  apiEndpoint : string;
  apiToken : string
}.

Definition DEFAULT_SETTINGS : MyPluginSettings := {|
  apiEndpoint := "https://xxxxx/api/1/upload";
  apiToken := "your-api-token-here"
|}.

(** class ImageUploadService: its two private fields, copied from the
    settings by the constructor. *)
Record ImageUploadService : Type := {
  service_apiEndpoint : string;
  service_apiToken : string
}.

Definition new_ImageUploadService (apiEndpoint apiToken : string)
  : ImageUploadService :=
  {| service_apiEndpoint := apiEndpoint; service_apiToken := apiToken |}.

(** A DOM [File]: its name, its MIME type and its bytes. *)
Record File : Type := {
  name : string;
  type : string;
  arrayBuffer : list byte
}.

(** A [DataTransferItem]; [getAsFile] is [null] for an item that is not a
    file. *)
Record DataTransferItem : Type := {
  item_type : string;
  getAsFile : option File
}.

(** A [ClipboardEvent]: [clipboardData] may be [null]. *)
Record ClipboardEvent : Type := {
  clipboardData : option (list DataTransferItem)
}.

(** The argument of [https.request] and the bytes written to it. *)
Inductive header_value : Type :=
| HString (s : string)
| HNumber (n : nat).

Record RequestOptions : Type := {
  opt_hostname : string;
  opt_port : string + Z;
  opt_path : string;
  opt_method : string;
  opt_headers : list (string * header_value)
}.

(** What the plugin does to the outside, in order. *)
Inductive effect : Type :=
| console_log (s : string)
| console_error (message : string) (error : value)
| Notice (message : string)
| preventDefault
| https_request (options : RequestOptions) (payload : list byte).

(** What the network does to one request: the status code of the response
    (read when the response ends) and the events that fire, in order.
    [res_data chunk] carries the text [responseData += chunk] appends,
    that is the text the chunk decodes to on its own.  [res_aborted] is a
    connection lost after the response has started and before it is
    complete: the response object then emits 'aborted' (and, in later
    versions of Node, 'error') and 'close', to none of which the code
    listens, and the request emits no 'error' once it has a response. *)
Inductive net_event : Type :=
| res_data (chunk : string)
| res_end
| req_error (error : Error)
| res_aborted.

Record Exchange : Type := {
  statusCode : Z;
  events : list net_event
}.

(** State of the promise [uploadImage] returns. *)
Inductive promise : Type :=
| Pending
| Fulfilled (v : value)
| Rejected (reason : value).

(** [resolve] and [reject] settle a pending promise and do nothing to a
    settled one. *)
Definition resolve (v : value) (p : promise) : promise :=
  match p with Pending => Fulfilled v | _ => p end.

Definition reject (reason : value) (p : promise) : promise :=
  match p with Pending => Rejected reason | _ => p end.

(** *** The host application *)

(** The [Editor] of the host, as far as the plugin uses it. *)
Class EditorAPI (Editor : Type) : Type := {
  EditorPosition : Type;
  getCursor : Editor -> EditorPosition;
  replaceRange : string -> EditorPosition -> Editor -> Editor
}.

Section Host.

Context {Editor : Type} {editor_api : EditorAPI Editor}.

Inductive View : Type :=
| MarkdownView (editor : Editor)
| OtherView.

Record WorkspaceLeaf : Type := { view : View }.

(** [app.workspace]: the active leaf, if any, and the other leaves. *)
Record Workspace : Type := {
  activeLeaf : option WorkspaceLeaf;
  otherLeaves : list WorkspaceLeaf
}.

(** How a run of a handler ends: it returns, it throws (for an [async]
    function: its promise is rejected), or it awaits a promise that is
    never settled. *)
Inductive completion (A : Type) : Type :=
| Normal (a : A)
| Abrupt (reason : value)
| Suspended.
Arguments Normal {A} a.
Arguments Abrupt {A} reason.
Arguments Suspended {A}.

Record outcome (A : Type) : Type := {
  emitted : list effect;
  workspace : Workspace;
  result : completion A
}.
Arguments emitted {A} o.
Arguments workspace {A} o.
Arguments result {A} o.

(** Handlers: the workspace is threaded, the effects are collected. *)
Definition M (A : Type) : Type := Workspace -> outcome A.

Definition ret {A : Type} (a : A) : M A :=
  fun ws => {| emitted := []; workspace := ws; result := Normal a |}.

Definition mbind {A B : Type} (c : M A) (k : A -> M B) : M B :=
  fun ws =>
    let o := c ws in
    match result o with
    | Normal a =>
        let o' := k a (workspace o) in
        {| emitted := emitted o ++ emitted o';
           workspace := workspace o';
           result := result o' |}
    | Abrupt reason =>
        {| emitted := emitted o; workspace := workspace o;
           result := Abrupt reason |}
    | Suspended =>
        {| emitted := emitted o; workspace := workspace o;
           result := Suspended |}
    end.

Definition emit (effects : list effect) : M unit :=
  fun ws => {| emitted := effects; workspace := ws; result := Normal tt |}.

Definition throw {A : Type} (e : Error) : M A :=
  fun ws => {| emitted := []; workspace := ws; result := Abrupt (VError e) |}.

(** [await p]. *)
Definition await (p : promise) : M value :=
  fun ws =>
    {| emitted := []; workspace := ws;
       result := match p with
                 | Fulfilled v => Normal v
                 | Rejected reason => Abrupt reason
                 | Pending => Suspended
                 end |}.

Notation "'let*' x ':=' c 'in' k" := (mbind c (fun x => k))
  (at level 10, x name, c at level 100, k at level 200).
Notation "c1 '>>' c2" := (mbind c1 (fun _ => c2))
  (at level 61, right associativity).

Context {engine : Engine}.

(** *** showError *)

Definition showError (message : string) (error : value) : M unit :=
  emit [console_error message error; Notice message].

(** *** ImageUploadService.uploadImage *)

Definition boundary : string := "----WebKitFormBoundary7MA4YWxkTrZu0gW".

(** [Buffer.from(s)] *)
Definition Buffer_from (s : string) : list byte := list_byte_of_string s.

Definition part_header (blob : File) : string :=
  "--" ++ boundary ++ Str.CRLF ++
  "Content-Disposition: form-data; name=" ++ Str.dquote ++ "source" ++
  Str.dquote ++ "; filename=" ++ Str.dquote ++ name blob ++ Str.dquote ++
  Str.CRLF ++ "Content-Type: " ++ type blob ++ Str.CRLF ++ Str.CRLF.

Definition closing : string :=
  Str.CRLF ++ "--" ++ boundary ++ "--" ++ Str.CRLF.

(** [Buffer.concat([...])] of lines 39-43. *)
Definition payload_of (blob : File) : list byte :=
  Buffer_from (part_header blob) ++ arrayBuffer blob ++ Buffer_from closing.

(** The [options] object of lines 46-56. *)
Definition options_of (this : ImageUploadService) (url : URL)
                      (payload : list byte) : RequestOptions :=
  {| opt_hostname := hostname url;
     opt_port := if Str.is_empty (port url) then inr 443%Z else inl (port url);
     opt_path := pathname url;
     opt_method := "POST";
     opt_headers :=
       [ ("Content-Type", HString ("multipart/form-data; boundary=" ++ boundary));
         ("Content-Length", HNumber (List.length payload));
         ("X-API-Key", HString (service_apiToken this)) ] |}.

(** The body of the [try] of lines 67-73: what it does to the promise,
    unless it throws. *)
Definition try_body (responseData : string) : exc (promise -> promise) :=
  json <- JSON_parse responseData ;;
  status_code <- Get json "status_code" ;;
  is_200 <- loose_eq_number status_code (Number.of_Z 200) ;;
  if is_200 : bool then
    image <- Get json "image" ;;
    url <- Get image "url" ;;
    Ok (resolve url)
  else
    Ok (reject (VError (new_Error ("Upload failed: " ++ responseData)))).

(** The listener of the response's 'end' event, lines 65-80. *)
Definition on_end (statusCode : Z) (responseData : string) : promise -> promise :=
  if (statusCode =? 200)%Z then
    match try_body responseData with
    | Ok settle => settle
    | Throw error =>
        reject (VError (new_Error ("Error parsing response: " ++
                                   Error_toString error)))
    end
  else
    reject (VError (new_Error ("Upload failed with status: " ++
                               Number.toString (Number.of_Z statusCode)))).

(** The listener of the request's 'error' event, lines 83-85. *)
Definition on_error (error : Error) : promise -> promise :=
  reject (VError (new_Error ("Request error: " ++ Error_toString error))).

(** One event: [responseData] and the promise before and after. *)
Definition on_event (statusCode : Z) (st : string * promise) (ev : net_event)
  : string * promise :=
  match ev with
  | res_data chunk => (fst st ++ chunk, snd st)
  | res_end => (fst st, on_end statusCode (fst st) (snd st))
  | req_error error => (fst st, on_error error (snd st))
  | res_aborted => st
  end.

(** The promise of lines 58-89 once the events of [net] have fired. *)
Definition settle (net : Exchange) : promise :=
  snd (fold_left (on_event (statusCode net)) (events net) (EmptyString, Pending)).

(** [uploadImage(blob)]: the effects, and the promise it returns.  A
    [null] blob makes [blob.arrayBuffer()] throw, and an endpoint that
    [new URL] refuses makes the constructor throw, before any request. *)
Definition uploadImage (this : ImageUploadService) (blob : option File)
                       (net : Exchange) : list effect * promise :=
  match blob with
  | None =>
      ([console_log "Uploading image..."],
       Rejected (VError (TypeError (CannotRead VNull "arrayBuffer"))))
  | Some blob =>
      let payload := payload_of blob in
      match URL_new (service_apiEndpoint this) with
      | Throw e => ([console_log "Uploading image..."], Rejected (VError e))
      | Ok url =>
          ([console_log "Uploading image...";
            https_request (options_of this url payload) payload],
           settle net)
      end
  end.

(** *** PasteUploadPlugin *)

Record PasteUploadPlugin : Type := {
  settings : MyPluginSettings;
  imageUploadService : ImageUploadService
}.

(** What [loadData] returns: [null], or an object that may have the two
    properties.  A property that is there holds a string, as the settings
    interface declares and as the settings tab writes it; a data file
    changed by hand to hold another JSON value for one of them is outside
    this model. *)
Record LoadedData : Type := {
  loaded_apiEndpoint : option string;
  loaded_apiToken : option string
}.

(** [loadSettings]: [Object.assign({}, DEFAULT_SETTINGS, loadedSettings)]. *)
Definition loadSettings (loadedSettings : option LoadedData) : MyPluginSettings :=
  match loadedSettings with
  | None => DEFAULT_SETTINGS
  | Some data =>
      {| apiEndpoint := match loaded_apiEndpoint data with
                        | Some s => s
                        | None => apiEndpoint DEFAULT_SETTINGS
                        end;
         apiToken := match loaded_apiToken data with
                     | Some s => s
                     | None => apiToken DEFAULT_SETTINGS
                     end |}
  end.

(** What [onload] builds: the settings, and the upload service made from
    them (a later change of the settings does not reach the service). *)
Definition onload (loadedSettings : option LoadedData) : PasteUploadPlugin :=
  let settings := loadSettings loadedSettings in
  {| settings := settings;
     imageUploadService :=
       new_ImageUploadService (apiEndpoint settings) (apiToken settings) |}.

(** [insert_image(image_url)], lines 144-154. *)
Definition insert_image (image_url : value) : M unit :=
  fun ws =>
    match activeLeaf ws with
    | Some {| view := MarkdownView editor |} =>
        let cursor := getCursor editor in
        match ToString image_url with
        | Ok text =>
            let imageMarkdown := "![](" ++ text ++ ")" in
            {| emitted := [];
               workspace :=
                 {| activeLeaf :=
                      Some {| view := MarkdownView
                                        (replaceRange imageMarkdown cursor editor) |};
                    otherLeaves := otherLeaves ws |};
               result := Normal tt |}
        | Throw e => throw e ws
        end
    | _ =>
        showError "Failed to insert image, no active Markdown view."
                  (VStr "No active Markdown view found") ws
    end.

(** The network's answer to an upload for which [net] has none: nothing
    ever happens. *)
Definition silence : Exchange := {| statusCode := 0; events := [] |}.

(** The loop of lines 128-139; [net] answers the uploads in the order
    they are issued.  The items are those the clipboard holds when the
    handler starts. *)
Fixpoint paste_items (this : PasteUploadPlugin) (items : list DataTransferItem)
                     (net : list Exchange) : M unit :=
  match items with
  | [] => ret tt
  | item :: rest =>
      if Str.startsWith (item_type item) "image" then
        let call := uploadImage (imageUploadService this) (getAsFile item)
                                (hd silence net) in
        emit [preventDefault] >>
        emit (fst call) >>
        let* image_url := await (snd call) in
        (if instanceof_Error image_url
         then showError "Failed to upload image" image_url
         else insert_image image_url) >>
        paste_items this rest (tl net)
      else paste_items this rest net
  end.

(** [paste_handle(evt, editor, info)], lines 124-141.  The [editor] and
    [info] arguments are not used by the handler. *)
Definition paste_handle (this : PasteUploadPlugin) (evt : ClipboardEvent)
                        (editor : Editor) (net : list Exchange) : M unit :=
  match clipboardData evt with
  | Some items => paste_items this items net
  | None => ret tt
  end.

End Host.

Arguments View Editor : clear implicits.
Arguments WorkspaceLeaf Editor : clear implicits.
Arguments Workspace Editor : clear implicits.
Arguments Normal {A} a.
Arguments Abrupt {A} reason.
Arguments Suspended {A}.
Arguments emitted {Editor A} o.
Arguments workspace {Editor A} o.
Arguments result {Editor A} o.

(* ================================================================== *)
(** ** Vocabulary of the statements *)

(** A value with no [Error] object in it. *)
Fixpoint error_free (v : value) : bool :=
  match v with
  | VError _ => false
  | VArr l => forallb error_free l
  | VObj m => forallb (fun kv => error_free (snd kv)) m
  | _ => true
  end.

(** The text of a body received in [chunks]. *)
Definition body_of (chunks : list string) : string :=
  fold_right String.append EmptyString chunks.

(** A response with status code [status] whose body arrives in [chunks] and
    which then ends; [later] is whatever fires after that. *)
Definition received (status : Z) (chunks : list string) (later : list net_event)
  : Exchange :=
  {| statusCode := status;
     events := map res_data chunks ++ res_end :: later |}.

(** A request that emits 'error' before the response (if any) has ended. *)
Definition failed (status : Z) (chunks : list string) (error : Error)
                  (later : list net_event) : Exchange :=
  {| statusCode := status;
     events := map res_data chunks ++ req_error error :: later |}.

Definition is_settled (p : promise) : bool :=
  match p with Pending => false | _ => true end.

(** A promise that is not fulfilled with a value holding an [Error]. *)
Definition no_error_fulfilled (p : promise) : bool :=
  match p with Fulfilled v => error_free v | _ => true end.

(** [v] is what the [try] block reads as [json.image.url] from [body], the
    comparison of [json.status_code] with 200 having succeeded. *)
Definition reads_url {engine : Engine} (body : string) (v : value) : Prop :=
  exists json status_code image,
    JSON_parse body = Ok json /\
    Get json "status_code" = Ok status_code /\
    loose_eq_number status_code (Number.of_Z 200) = Ok true /\
    Get json "image" = Ok image /\
    Get image "url" = Ok v.


(** The rejection reason of [p] is an [Error] whose message contains [s]. *)
Definition rejection_mentions (p : promise) (s : string) : bool :=
  match p with
  | Rejected (VError e) => Str.includes (error_message e) s
  | _ => false
  end.


(** How many uploads a run over [items] that returns issues: one for each
    item whose type starts with "image". *)
Definition uploads_of (items : list DataTransferItem) : nat :=
  List.length (filter (fun i => Str.startsWith (item_type i) "image") items).

(** The notifications among some effects, in order. *)
Definition notices (effects : list effect) : list string :=
  flat_map (fun e => match e with Notice m => [m] | _ => [] end) effects.

(** The payloads of the requests among some effects, in order. *)
Definition requests (effects : list effect) : list (list byte) :=
  flat_map (fun e => match e with https_request _ p => [p] | _ => [] end) effects.

(** The header [key] of a request. *)
Definition header (key : string) (options : RequestOptions) : option header_value :=
  option_map snd (find (fun kv => (fst kv =? key)%string) (opt_headers options)).

(** Bytes the multipart framing adds around a blob, the bytes of its file
    name and of its MIME type apart. *)
Definition framing_overhead : nat := 164.

(* ================================================================== *)
(** ** An engine and an editor to run examples on *)

Module Sample.

(** Message texts in V8's wording. *)
Definition type_error_text (k : TypeError_kind) : string :=
  match k with
  | CannotRead base key =>
      "Cannot read properties of " ++
      (match base with VNull => "null" | _ => "undefined" end) ++
      " (reading '" ++ key ++ "')"
  | CannotConvert => "Cannot convert object to primitive value"
  end.

Definition is_host_char (c : ascii) : bool :=
  negb ((c =? ":")%char || (c =? "/")%char || (c =? "?")%char || (c =? "#")%char).

Definition is_path_char (c : ascii) : bool :=
  negb ((c =? "?")%char || (c =? "#")%char).

(** A URL parser for [https://host[:port][/path]] endpoints. *)
Definition parse_https (s : string) : exc URL :=
  match Str.strip_prefix "https://" s with
  | None => Throw (mkError "TypeError" "Invalid URL")
  | Some r =>
      let (host, r1) := Str.span is_host_char r in
      let (prt, r2) :=
        match r1 with
        | String c r' =>
            if (c =? ":")%char then Str.span Number.is_digit r'
            else (EmptyString, r1)
        | EmptyString => (EmptyString, r1)
        end in
      let (path, _) := Str.span is_path_char r2 in
      if Str.is_empty host then Throw (mkError "TypeError" "Invalid URL")
      else Ok {| hostname := host;
                 port := if (prt =? "443")%string then EmptyString else prt;
                 pathname := if Str.is_empty path then "/" else path |}
  end.

#[export] Instance engine : Engine := {
  SyntaxError_message := fun _ => "Unexpected token in JSON";
  TypeError_message := type_error_text;
  URL_new := parse_https
}.

(** A one-line text buffer with a cursor offset. *)
Record TextEditor : Type := { text : string; cursor : nat }.

#[export] Instance editor_api : EditorAPI TextEditor := {
  EditorPosition := nat;
  getCursor := cursor;
  replaceRange := fun s pos ed =>
    {| text := substring 0 pos (text ed) ++ s ++
               substring pos (String.length (text ed) - pos) (text ed);
       cursor := cursor ed |}
}.

Definition service : ImageUploadService :=
  new_ImageUploadService "https://img.example/api/1/upload" "secret".

Definition plugin : PasteUploadPlugin :=
  onload (Some {| loaded_apiEndpoint := Some "https://img.example/api/1/upload";
                  loaded_apiToken := Some "secret" |}).

Definition png (file_name : string) : File :=
  {| name := file_name; type := "image/png";
     arrayBuffer := [x89; x50; x4e; x47]%byte |}.

(** A response with the given status whose body arrives in one chunk. *)
Definition response (status : Z) (body : string) : Exchange :=
  {| statusCode := status; events := [res_data body; res_end] |}.

Definition note_leaf (s : string) : WorkspaceLeaf TextEditor :=
  {| view := MarkdownView {| text := s; cursor := 0 |} |}.

Definition note (s : string) : Workspace TextEditor :=
  {| activeLeaf := Some (note_leaf s); otherLeaves := [] |}.

Definition endpoint : URL :=
  {| hostname := "img.example"; port := EmptyString; pathname := "/api/1/upload" |}.

Definition image_item (f : File) : DataTransferItem :=
  {| item_type := type f; getAsFile := Some f |}.

Definition text_item : DataTransferItem :=
  {| item_type := "text/plain"; getAsFile := None |}.

(** The response body of the specification's example, and variants. *)
Definition good_body : string :=
  Str.js "{'status_code':200,'image':{'url':'https://x/y.png'}}".

Definition good_json : value :=
  VObj [("status_code", VNum (Number.Dec 200 0));
        ("image", VObj [("url", VStr "https://x/y.png")])].

Definition string_status_body : string :=
  Str.js "{'status_code':'200','image':{'url':'https://x/y.png'}}".

Definition string_status_json : value :=
  VObj [("status_code", VStr "200");
        ("image", VObj [("url", VStr "https://x/y.png")])].

Definition status_500_body : string := Str.js "{'status_code':500}".

Definition no_image_body : string := Str.js "{'status_code':200}".

Definition null_image_body : string := Str.js "{'status_code':200,'image':null}".

Definition no_url_body : string := Str.js "{'status_code':200,'image':{}}".

(** The body [null], and a body whose [status_code] is an object with a
    member named "toString". *)
Definition null_body : string := "null".

Definition object_status_body : string :=
  Str.js "{'status_code':{'toString':1}}".

(** A [status_code] written with more digits than a double holds. *)
Definition long_status_body : string :=
  Str.js "{'status_code':200.00000000000000001,'image':{'url':'https://x/y.png'}}".

Definition refused : Error := mkError "Error" "connect ECONNREFUSED 127.0.0.1:443".

(** The connection is lost when a part of the body has arrived. *)
Definition connection_lost : Exchange :=
  {| statusCode := 200;
     events := [res_data (Str.js "{'status_code':200,"); res_aborted] |}.

Definition no_leaf : Workspace TextEditor :=
  {| activeLeaf := None; otherLeaves := [note_leaf "hello"] |}.

(** One image is pasted and its upload is answered 403. *)
Definition paste_one_403 : outcome unit :=
  paste_handle plugin {| clipboardData := Some [image_item (png "a.png")] |}
               {| text := "hello"; cursor := 0 |}
               [response 403 "Forbidden"] (note "hello").

(** Two images and a text item are pasted; the first upload is answered
    with a URL, the second 403. *)
Definition paste_two_second_403 : outcome unit :=
  paste_handle plugin
               {| clipboardData :=
                    Some [image_item (png "a.png"); text_item;
                          image_item (png "b.png")] |}
               {| text := "hello"; cursor := 0 |}
               [response 200 good_body; response 403 "Forbidden"] (note "hello").

End Sample.

(* ================================================================== *)
(** ** Settings: persistence and the settings tab *)

(** Modelled from the spec: the host's [saveData] and [loadData], which
    are not part of the plugin ("Persisted/loaded by an external
    collaborator (host application's settings storage)").  [saveData s] is
    what a later [loadData()] returns once [s] has been saved: an object
    with the two properties of [s]. *)
Definition saveData (s : MyPluginSettings) : option LoadedData :=
  Some {| loaded_apiEndpoint := Some (apiEndpoint s);
          loaded_apiToken := Some (apiToken s) |}.

(** [saveSettings]: [saveData(this.settings)], lines 119-121. *)
Definition saveSettings (this : PasteUploadPlugin) : option LoadedData :=
  saveData (settings this).

(** The [onChange] callback of the 'API Endpoint' field, lines 176-179:
    the plugin after the assignment, and the data file after the save. *)
Definition onChange_apiEndpoint (value : string) (this : PasteUploadPlugin)
  : PasteUploadPlugin * option LoadedData :=
  let changed :=
    {| settings := {| apiEndpoint := value;
                      apiToken := apiToken (settings this) |};
       imageUploadService := imageUploadService this |} in
  (changed, saveSettings changed).

(** The [onChange] callback of the 'API Key' field, lines 187-190. *)
Definition onChange_apiToken (value : string) (this : PasteUploadPlugin)
  : PasteUploadPlugin * option LoadedData :=
  let changed :=
    {| settings := {| apiEndpoint := apiEndpoint (settings this);
                      apiToken := value |};
       imageUploadService := imageUploadService this |} in
  (changed, saveSettings changed).

(* ================================================================== *)
(** ** More vocabulary *)

(** The test of line 130. *)
Definition is_image_item (item : DataTransferItem) : bool :=
  Str.startsWith (item_type item) "image".

(** The files of the items that have one, in order. *)
Definition files_of (items : list DataTransferItem) : list File :=
  flat_map (fun i => match getAsFile i with Some f => [f] | None => [] end) items.

(** An event that settles a pending promise: the 'end' of the response or
    the 'error' of the request. *)
Definition settles (ev : net_event) : bool :=
  match ev with res_end | req_error _ => true | _ => false end.

(** The four ways [uploadImage] starts the message of the [Error] it
    rejects with. *)
Definition failure_prefixes : list string :=
  ["Upload failed with status: "; "Upload failed: ";
   "Error parsing response: "; "Request error: "].

(** A promise that, if rejected, is rejected with an [Error] whose message
    starts with one of the four prefixes. *)
Definition listed_rejection (p : promise) : Prop :=
  match p with
  | Rejected r =>
      exists prefix rest,
        In prefix failure_prefixes /\ r = VError (new_Error (prefix ++ rest))
  | _ => True
  end.

(** Bytes of the payload before the blob's bytes, and after them. *)
Definition header_length (blob : File) : nat :=
  119 + String.length (name blob) + String.length (type blob).

Definition closing_length : nat := 45.

(** The editor after a Markdown image link for each URL, in order, has
    been put at the cursor. *)
Definition insert_links {Editor : Type} {editor_api : EditorAPI Editor}
                        (urls : list string) (editor : Editor) : Editor :=
  fold_left (fun ed u => replaceRange ("![](" ++ u ++ ")") (getCursor ed) ed)
            urls editor.

(** The workspace with [editor] in the Markdown view of its active leaf. *)
Definition with_active_editor {Editor : Type} (ws : Workspace Editor)
                              (editor : Editor) : Workspace Editor :=
  {| activeLeaf := Some {| view := MarkdownView editor |};
     otherLeaves := otherLeaves ws |}.

Module SampleRuns.

Import Sample.

(** A body that passes the comparison and whose [image] has no [url]. *)
Definition no_url_json : value :=
  VObj [("status_code", VNum (Number.Dec 200 0)); ("image", VObj [])].

Definition other_view : Workspace TextEditor :=
  {| activeLeaf := Some {| view := OtherView |}; otherLeaves := [note_leaf "hello"] |}.

Definition second_body : string :=
  Str.js "{'status_code':200,'image':{'url':'https://x/z.png'}}".

Definition three_items : list DataTransferItem :=
  [image_item (png "a.png"); text_item; image_item (png "b.png")].

Definition two_answers : list Exchange :=
  [response 200 good_body; response 200 second_body].

(** A plugin whose endpoint the URL constructor refuses. *)
Definition misconfigured : PasteUploadPlugin :=
  onload (Some {| loaded_apiEndpoint := Some "img.example/upload";
                  loaded_apiToken := Some "secret" |}).

(** The body of [status_500_body] in two chunks. *)
Definition first_half : string := Str.js "{'status_code'".

Definition second_half : string := ":500}".

Definition editor_hello : TextEditor := {| text := "hello"; cursor := 0 |}.

(** A response of which only a part ever arrives. *)
Definition stalled : Exchange :=
  {| statusCode := 200; events := [res_data "{"; res_data "}"] |}.

End SampleRuns.

(* ================================================================== *)
(** * Facts *)

Ltac break_match :=
  match goal with
  | H : context [match ?x with _ => _ end] |- _ => destruct x eqn:?
  | |- context [match ?x with _ => _ end] => destruct x eqn:?
  end.

(** ** Strings *)

Module StrFacts.

Lemma length_append (a b : string) :
  String.length (a ++ b) = String.length a + String.length b.
Proof. induction a as [|c a IH]; simpl; [reflexivity | now rewrite IH]. Qed.

Lemma append_assoc (a b c : string) : (a ++ b) ++ c = a ++ b ++ c.
Proof. induction a as [|x a IH]; simpl; [reflexivity | now rewrite IH]. Qed.

Lemma append_nil_r (a : string) : a ++ EmptyString = a.
Proof. induction a as [|x a IH]; simpl; [reflexivity | now rewrite IH]. Qed.

Lemma strip_prefix_spec (p s r : string) :
  Str.strip_prefix p s = Some r <-> s = p ++ r.
Proof.
  revert s; induction p as [|a p IH]; intros s; simpl.
  - split; intros H; [now inversion H | now subst].
  - destruct s as [|b s].
    + split; intros H; discriminate.
    + destruct (Ascii.eqb_spec a b) as [->|Hne].
      * rewrite IH. split; intros H; [now subst | now inversion H].
      * split; intros H; [discriminate | inversion H; congruence].
Qed.

Lemma startsWith_spec (s p : string) :
  Str.startsWith s p = true <-> exists r, s = p ++ r.
Proof.
  unfold Str.startsWith. destruct (Str.strip_prefix p s) as [r|] eqn:E.
  - apply strip_prefix_spec in E. split; eauto.
  - split; [discriminate|]. intros [r Hr]. apply strip_prefix_spec in Hr. congruence.
Qed.

(** [includes] is the substring test. *)
Lemma includes_spec (s p : string) :
  Str.includes s p = true <-> exists a b, s = a ++ p ++ b.
Proof.
  induction s as [|c s IH]; simpl.
  - rewrite orb_false_r, startsWith_spec. split.
    + intros [r Hr]. exists EmptyString, r. exact Hr.
    + intros [a [b H]]. destruct a; simpl in H; [eauto | discriminate].
  - rewrite orb_true_iff, startsWith_spec, IH. split.
    + intros [[r Hr] | [a [b H]]].
      * exists EmptyString, r. exact Hr.
      * exists (String c a), b. simpl. now rewrite H.
    + intros [a [b H]]. destruct a as [|x a]; simpl in H.
      * left. eauto.
      * right. inversion H. eauto.
Qed.

Lemma includes_suffix (a b : string) : Str.includes (a ++ b) b = true.
Proof.
  apply includes_spec. exists a, EmptyString. now rewrite append_nil_r.
Qed.

Lemma span_append (p : ascii -> bool) (s a b : string) :
  Str.span p s = (a, b) -> s = a ++ b.
Proof.
  revert a b; induction s as [|c s IH]; simpl; intros a b H.
  - now inversion H.
  - destruct (p c).
    + destruct (Str.span p s) as [a' b'] eqn:E. inversion H; subst.
      simpl. f_equal. now apply IH.
    + now inversion H.
Qed.

Lemma span_length (p : ascii -> bool) (s a b : string) :
  Str.span p s = (a, b) -> String.length s = String.length a + String.length b.
Proof. intros H. apply span_append in H. subst. apply length_append. Qed.

Lemma length_list_byte (s : string) :
  List.length (list_byte_of_string s) = String.length s.
Proof.
  unfold list_byte_of_string. rewrite length_map.
  induction s as [|c s IH]; simpl; [reflexivity | now rewrite IH].
Qed.

Lemma first_strip_shorter (table : list string) (s r : string) :
  Forall (fun p => p <> EmptyString) table ->
  Str.first_strip table s = Some r -> String.length r < String.length s.
Proof.
  induction 1 as [|p table Hp _ IH]; simpl; [discriminate|].
  destruct (Str.strip_prefix p s) as [r'|] eqn:E; [|exact IH].
  intros H; inversion H; subst. apply strip_prefix_spec in E. subst.
  rewrite length_append. destruct p; [congruence | simpl; lia].
Qed.

(** With fuel for every character, [strip_all] stops only when no string
    of the table is a prefix of what is left. *)
Lemma strip_all_done (table : list string) (fuel : nat) :
  Forall (fun p => p <> EmptyString) table ->
  forall s, String.length s <= fuel ->
            Str.first_strip table (Str.strip_all fuel table s) = None.
Proof.
  intros Ht. induction fuel as [|f IH]; intros s Hs; simpl.
  - destruct s; [|simpl in Hs; lia].
    destruct (Str.first_strip table EmptyString) as [r|] eqn:E; [|reflexivity].
    apply first_strip_shorter in E; [simpl in E; lia | exact Ht].
  - destruct (Str.first_strip table s) as [r|] eqn:E; [|exact E].
    apply IH. apply first_strip_shorter in E; [lia | exact Ht].
Qed.

Lemma rev_append_length (s acc : string) :
  String.length (Str.rev_append s acc) = String.length s + String.length acc.
Proof.
  revert acc; induction s as [|c s IH]; intros acc; simpl; [reflexivity|].
  rewrite IH. simpl. lia.
Qed.

Lemma rev_length (s : string) : String.length (Str.rev s) = String.length s.
Proof. unfold Str.rev. rewrite rev_append_length. simpl. lia. Qed.

Lemma rev_append_twice (s a b : string) :
  Str.rev_append (Str.rev_append s a) b = Str.rev_append a (s ++ b).
Proof.
  revert a; induction s as [|c s IH]; intros a; simpl; [reflexivity|].
  now rewrite IH.
Qed.

Lemma rev_involutive (s : string) : Str.rev (Str.rev s) = s.
Proof. unfold Str.rev. rewrite rev_append_twice. simpl. apply append_nil_r. Qed.

End StrFacts.

(** ** Numbers *)

Module NumberFacts.

Import StrFacts.

Lemma StrWhiteSpace_nonempty :
  Forall (fun p => p <> EmptyString) Number.StrWhiteSpace /\
  Forall (fun p => p <> EmptyString) (map Str.rev Number.StrWhiteSpace).
Proof. split; repeat constructor; discriminate. Qed.

(** [trim] has fuel enough: what it returns does not end with white
    space, and its first pass leaves no white space in front. *)
Lemma trim_done (s : string) :
  Str.first_strip Number.StrWhiteSpace
    (Str.strip_all (String.length s) Number.StrWhiteSpace s) = None /\
  Str.first_strip (map Str.rev Number.StrWhiteSpace) (Str.rev (Number.trim s)) = None.
Proof.
  destruct StrWhiteSpace_nonempty as [Hf Hb]. split.
  - now apply strip_all_done.
  - unfold Number.trim. rewrite rev_involutive.
    apply strip_all_done; [exact Hb|]. rewrite rev_length. lia.
Qed.

(** Comparison is on the doubles: a decimal within half a unit in the
    last place of 200 equals 200, the next double does not; a tie goes to
    the even significand; what is beyond the largest double is infinite,
    and what is below half the smallest is zero. *)
Lemma equal_rounds :
  Number.equal (Number.Dec 20000000000000000001 (-17)) (Number.of_Z 200) = true /\
  Number.equal (Number.Dec 2 2) (Number.of_Z 200) = true /\
  Number.equal (Number.Dec 2000000000000001 (-13)) (Number.of_Z 200) = false /\
  Number.equal (Number.Dec 9007199254740993 0) (Number.Dec 9007199254740992 0) = true /\
  Number.equal (Number.Dec 9007199254740995 0) (Number.Dec 9007199254740996 0) = true /\
  Number.value (Number.Dec 1 (-1)) = Number.B64_finite 7205759403792794 (-56) /\
  Number.value (Number.Dec 1 309) = Number.B64_Infinity false /\
  Number.value (Number.Dec 2 (-324)) = Number.B64_finite 0 0 /\
  Number.equal Number.NaN Number.NaN = false.
Proof. vm_compute. repeat split. Qed.

End NumberFacts.

(** ** The JSON parser *)

Module JsonFacts.

Import Json StrFacts.

Lemma skip_ws_length (s : string) :
  String.length (skip_ws s) <= String.length s.
Proof.
  induction s as [|c s IH]; simpl; [lia|].
  destruct (is_ws c); simpl; lia.
Qed.

Lemma skip_ws_bound (s t : string) :
  skip_ws s = t -> String.length t <= String.length s.
Proof. intros <-. apply skip_ws_length. Qed.

Lemma lex_string_length (s : string) :
  forall st out units r,
    lex_string st out s = Some (units, r) -> String.length r < String.length s.
Proof.
  induction s as [|c s IH]; simpl; intros st out units r H; [discriminate|].
  destruct st.
  - repeat (break_match; try discriminate).
    + inversion H; subst. lia.
    + apply IH in H. lia.
    + apply IH in H. lia.
  - repeat (break_match; try discriminate); apply IH in H; lia.
  - repeat (break_match; try discriminate); apply IH in H; lia.
Qed.

Lemma string_literal_length (s str r : string) :
  string_literal s = Some (str, r) -> String.length r < String.length s.
Proof.
  unfold string_literal. intros H.
  destruct (lex_string LNormal [] s) as [[u r']|] eqn:E; [|discriminate].
  inversion H; subst. now apply lex_string_length in E.
Qed.

Lemma fraction_length (s fp r : string) :
  fraction s = Some (fp, r) -> String.length r <= String.length s.
Proof.
  unfold fraction. intros H.
  repeat (break_match; try discriminate); inversion H; subst; simpl; try lia.
  match goal with E : Str.span _ _ = _ |- _ => apply span_length in E end. lia.
Qed.

Lemma exponent_length (s r : string) (ex : Z) :
  exponent s = Some (ex, r) -> String.length r <= String.length s.
Proof.
  unfold exponent. intros H.
  repeat (break_match; try discriminate); inversion H; subst; simpl; try lia;
    repeat match goal with
           | E : Str.span _ _ = _ |- _ => apply span_length in E
           | E : (_, _) = (_, _) |- _ => inversion E; subst; clear E
           end; simpl in *; lia.
Qed.

Lemma number_literal_length (s r : string) (n : Number.number) :
  number_literal s = Some (n, r) -> String.length r < String.length s.
Proof.
  unfold number_literal. intros H.
  repeat (break_match; try discriminate); inversion H; subst;
    repeat match goal with
           | E : Str.span _ _ = _ |- _ => apply span_length in E
           | E : fraction _ = _ |- _ => apply fraction_length in E
           | E : exponent _ = _ |- _ => apply exponent_length in E
           | E : (_, _) = (_, _) |- _ => inversion E; subst; clear E
           | E : Str.is_empty ?x = false |- _ => destruct x; [discriminate|clear E]
           end; simpl in *; lia.
Qed.

Lemma keyword_length (kw s r : string) (v v' : value) :
  keyword kw v s = POk v' r -> kw <> EmptyString ->
  String.length r < String.length s.
Proof.
  unfold keyword. intros H Hkw.
  destruct (Str.strip_prefix kw s) as [r'|] eqn:E; [|discriminate].
  inversion H; subst. apply strip_prefix_spec in E. subst.
  rewrite length_append. destruct kw; [congruence | simpl; lia].
Qed.

Lemma keyword_value (kw s r : string) (v v' : value) :
  keyword kw v s = POk v' r -> v' = v.
Proof. unfold keyword. destruct (Str.strip_prefix kw s); congruence. Qed.

(** Turn what is known of the calls made so far into facts on lengths. *)
Ltac lengths IHv IHe IHm :=
  repeat match goal with
         | H : skip_ws _ = _ |- _ => apply skip_ws_bound in H
         | H : string_literal _ = Some _ |- _ => apply string_literal_length in H
         | H : number_literal _ = Some _ |- _ => apply number_literal_length in H
         | H : keyword _ _ _ = POk _ _ |- _ =>
             apply keyword_length in H; [|discriminate]
         | H : parse_value _ _ = POk _ _ |- _ => apply IHv in H
         | H : parse_elements _ _ _ = POk _ _ |- _ => apply IHe in H
         | H : parse_members _ _ _ = POk _ _ |- _ => apply IHm in H
         | H : POk _ _ = POk _ _ |- _ => inversion H; subst; clear H
         end.

(** A successful parse reads at least one character. *)
Lemma parse_consumes (f : nat) :
  (forall s v r, parse_value f s = POk v r ->
                 String.length r < String.length s) /\
  (forall acc s v r, parse_elements f acc s = POk v r ->
                     String.length r < String.length s) /\
  (forall acc s v r, parse_members f acc s = POk v r ->
                     String.length r < String.length s).
Proof.
  induction f as [|f [IHv [IHe IHm]]].
  - repeat split; intros; discriminate.
  - repeat split.
    + intros s v r H. simpl in H.
      repeat (break_match; try discriminate);
        lengths IHv IHe IHm; simpl in *; lia.
    + intros acc s v r H. simpl in H.
      repeat (break_match; try discriminate);
        lengths IHv IHe IHm; simpl in *; lia.
    + intros acc s v r H. simpl in H.
      repeat (break_match; try discriminate);
        lengths IHv IHe IHm; simpl in *; lia.
Qed.

(** Two units of fuel for each character are enough. *)
Lemma parse_fuel (f : nat) :
  (forall s, 2 * String.length s + 1 <= f -> parse_value f s <> PFuel) /\
  (forall acc s, 2 * String.length s + 2 <= f -> parse_elements f acc s <> PFuel) /\
  (forall acc s, 2 * String.length s + 2 <= f -> parse_members f acc s <> PFuel).
Proof.
  induction f as [|f [IHv [IHe IHm]]].
  - repeat split; intros; lia.
  - destruct (parse_consumes f) as [Cv [Ce Cm]].
    repeat split.
    + intros s Hf H. simpl in H.
      repeat (break_match; try discriminate);
        try (unfold keyword in H; break_match; discriminate);
        lengths Cv Ce Cm;
        first [ eapply IHm; [|eassumption] | eapply IHe; [|eassumption] ];
        simpl in *; lia.
    + intros acc s Hf H. simpl in H.
      repeat (break_match; try discriminate);
        lengths Cv Ce Cm;
        first [ eapply IHe; [|eassumption] | eapply IHv; [|eassumption] ];
        simpl in *; lia.
    + intros acc s Hf H. simpl in H.
      repeat (break_match; try discriminate);
        lengths Cv Ce Cm;
        first [ eapply IHm; [|eassumption] | eapply IHv; [|eassumption] ];
        simpl in *; lia.
Qed.

(** The parser of [JSON_parse] never stops for lack of fuel. *)
Lemma parse_text_fuel (text : string) : parse_text text <> PFuel.
Proof.
  unfold parse_text.
  assert (H : parse_value (fuel_for text) text <> PFuel)
    by (apply (parse_fuel (fuel_for text)); unfold fuel_for; lia).
  destruct (parse_value (fuel_for text) text); try congruence.
  destruct (Str.is_empty (skip_ws rest)); discriminate.
Qed.

Lemma forallb_rev {A : Type} (p : A -> bool) (l : list A) :
  forallb p (List.rev l) = forallb p l.
Proof.
  induction l as [|x l IH]; simpl; [reflexivity|].
  rewrite forallb_app, IH. simpl. rewrite andb_true_r. apply andb_comm.
Qed.

(** What the parser builds holds no [Error] object. *)
Lemma parse_error_free (f : nat) :
  (forall s v r, parse_value f s = POk v r -> error_free v = true) /\
  (forall acc s v r, parse_elements f acc s = POk v r ->
                     forallb error_free acc = true -> error_free v = true) /\
  (forall acc s v r, parse_members f acc s = POk v r ->
                     forallb (fun kv => error_free (snd kv)) acc = true ->
                     error_free v = true).
Proof.
  induction f as [|f [IHv [IHe IHm]]].
  - repeat split; intros; discriminate.
  - repeat split.
    + intros s v r H. simpl in H.
      repeat (break_match; try discriminate);
        try (apply keyword_value in H; subst; reflexivity);
        try (inversion H; subst; reflexivity).
      * eapply IHm; [eassumption | reflexivity].
      * eapply IHe; [eassumption | reflexivity].
    + intros acc s v r H Hacc. simpl in H.
      repeat (break_match; try discriminate).
      * eapply IHe; [eassumption|]. simpl. rewrite Hacc.
        erewrite IHv by eassumption. reflexivity.
      * inversion H; subst. cbn [error_free].
        rewrite forallb_app, forallb_rev. simpl.
        rewrite Hacc. erewrite IHv by eassumption. reflexivity.
    + intros acc s v r H Hacc. simpl in H.
      repeat (break_match; try discriminate).
      * eapply IHm; [eassumption|]. simpl. rewrite Hacc.
        erewrite IHv by eassumption. reflexivity.
      * inversion H; subst. cbn [error_free].
        rewrite forallb_app, forallb_rev. simpl.
        rewrite Hacc. erewrite IHv by eassumption. reflexivity.
Qed.

Lemma JSON_parse_error_free {engine : Engine} (text : string) (v : value) :
  JSON_parse text = Ok v -> error_free v = true.
Proof.
  unfold JSON_parse, parse_text. intros H.
  destruct (parse_value (fuel_for text) text) as [v' r| |] eqn:E; try discriminate.
  destruct (Str.is_empty (skip_ws r)); [|discriminate].
  inversion H; subst.
  destruct (parse_error_free (fuel_for text)) as [Hv _]. eapply Hv, E.
Qed.

(** [JSON_parse] throws exactly on a text the grammar refuses, and what it
    throws is the SyntaxError of that text. *)
Lemma JSON_parse_throws {engine : Engine} (text : string) (e : Error) :
  JSON_parse text = Throw e -> parse_text text = PErr /\ e = SyntaxError text.
Proof.
  unfold JSON_parse. pose proof (parse_text_fuel text) as F.
  destruct (parse_text text); intros H; try discriminate; try congruence.
  inversion H. tauto.
Qed.

End JsonFacts.

(** ** The uploader *)

Section Uploader.

Context {engine : Engine}.
Import StrFacts JsonFacts.

Lemma resolve_settled (v : value) (p : promise) :
  is_settled p = true -> resolve v p = p.
Proof. destruct p; simpl; congruence. Qed.

Lemma reject_settled (r : value) (p : promise) :
  is_settled p = true -> reject r p = p.
Proof. destruct p; simpl; congruence. Qed.

Lemma own_property_error_free (key : string) (m : list (string * value)) (v : value) :
  own_property key m = Some v ->
  forallb (fun kv => error_free (snd kv)) m = true -> error_free v = true.
Proof.
  unfold own_property.
  assert (G : forall acc,
             (forall w, acc = Some w -> error_free w = true) ->
             fold_left (fun acc kv => if (fst kv =? key)%string
                                      then Some (snd kv) else acc) m acc = Some v ->
             forallb (fun kv => error_free (snd kv)) m = true ->
             error_free v = true).
  { induction m as [|kv m IH]; simpl; intros acc Hacc H Hm.
    - now apply Hacc.
    - apply andb_true_iff in Hm as [Hkv Hm].
      apply IH in H; [exact H| |exact Hm].
      intros w Hw. destruct (fst kv =? key)%string; [congruence | now apply Hacc]. }
  apply G. discriminate.
Qed.

Lemma Get_error_free (o v : value) (key : string) :
  Get o key = Ok v -> error_free o = true -> error_free v = true.
Proof.
  destruct o; simpl; intros H Ho; try discriminate;
    try (inversion H; subst; reflexivity).
  destruct (own_property key members) as [w|] eqn:E; inversion H; subst.
  - eapply own_property_error_free; eassumption.
  - reflexivity.
Qed.

(** The [try] block either resolves with the value it read as
    [json.image.url] or rejects with the raw body. *)
Lemma try_body_cases (responseData : string) (k : promise -> promise) :
  try_body responseData = Ok k ->
  (exists v, reads_url responseData v /\ error_free v = true /\ k = resolve v) \/
  k = reject (VError (new_Error ("Upload failed: " ++ responseData))).
Proof.
  unfold try_body. intros H.
  destruct (JSON_parse responseData) as [json|] eqn:Ej; simpl in H; [|discriminate].
  destruct (Get json "status_code") as [sc|] eqn:Es; simpl in H; [|discriminate].
  destruct (loose_eq_number sc (Number.of_Z 200)) as [[|]|] eqn:El; simpl in H;
    try discriminate.
  - destruct (Get json "image") as [image|] eqn:Ei; simpl in H; [|discriminate].
    destruct (Get image "url") as [url|] eqn:Eu; simpl in H; [|discriminate].
    inversion H; subst. left. exists url. split; [|split; [|reflexivity]].
    + exists json, sc, image. repeat split; assumption.
    + eapply Get_error_free; [eassumption|].
      eapply Get_error_free; [eassumption|].
      eapply JSON_parse_error_free; eassumption.
  - inversion H; subst. right. reflexivity.
Qed.

(** Whatever the [try] block throws is caught and makes the rejection. *)
Lemma on_end_catch (responseData : string) (e : Error) :
  try_body responseData = Throw e ->
  on_end 200 responseData Pending
  = Rejected (VError (new_Error ("Error parsing response: " ++ Error_toString e))).
Proof. intros H. unfold on_end. simpl. rewrite H. reflexivity. Qed.

Lemma on_end_settled (status : Z) (d : string) (p : promise) :
  is_settled p = true -> on_end status d p = p.
Proof.
  intros Hp. unfold on_end.
  destruct (status =? 200)%Z; [|now apply reject_settled].
  destruct (try_body d) as [k|e] eqn:E; [|now apply reject_settled].
  apply try_body_cases in E as [[v [_ [_ ->]]] | ->];
    [now apply resolve_settled | now apply reject_settled].
Qed.

(** The 'end' listener always settles a pending promise. *)
Lemma on_end_settles (status : Z) (d : string) :
  is_settled (on_end status d Pending) = true.
Proof.
  unfold on_end.
  destruct (status =? 200)%Z; [|reflexivity].
  destruct (try_body d) as [k|e] eqn:E; [|reflexivity].
  apply try_body_cases in E as [[v [_ [_ ->]]] | ->]; reflexivity.
Qed.

Lemma on_end_no_error (status : Z) (d : string) (p : promise) :
  no_error_fulfilled p = true -> no_error_fulfilled (on_end status d p) = true.
Proof.
  intros Hp. destruct p; try (rewrite on_end_settled; [exact Hp | reflexivity]).
  unfold on_end.
  destruct (status =? 200)%Z; [|reflexivity].
  destruct (try_body d) as [k|e] eqn:E; [|reflexivity].
  apply try_body_cases in E as [[v [_ [Hv ->]]] | ->]; [exact Hv | reflexivity].
Qed.


(** Once settled, a promise is not changed by later events. *)
Lemma events_settled (status : Z) (evs : list net_event) (st : string * promise) :
  is_settled (snd st) = true ->
  snd (fold_left (on_event status) evs st) = snd st.
Proof.
  revert st; induction evs as [|ev evs IH]; intros st Hst; simpl; [reflexivity|].
  assert (E : snd (on_event status st ev) = snd st).
  { destruct ev; simpl; [reflexivity | now apply on_end_settled
                                    | now apply reject_settled | reflexivity]. }
  rewrite IH; [exact E | now rewrite E].
Qed.

Lemma events_no_error (status : Z) (evs : list net_event) (st : string * promise) :
  no_error_fulfilled (snd st) = true ->
  no_error_fulfilled (snd (fold_left (on_event status) evs st)) = true.
Proof.
  revert st; induction evs as [|ev evs IH]; intros st Hst; simpl; [exact Hst|].
  apply IH. destruct ev; simpl.
  - exact Hst.
  - now apply on_end_no_error.
  - destruct (snd st); simpl in *; congruence.
  - exact Hst.
Qed.


Lemma events_data (status : Z) (chunks : list string) (evs : list net_event)
                  (d : string) (p : promise) :
  fold_left (on_event status) (map res_data chunks ++ evs) (d, p) =
  fold_left (on_event status) evs (d ++ body_of chunks, p).
Proof.
  revert d; induction chunks as [|c chunks IH]; intros d; simpl.
  - now rewrite append_nil_r.
  - rewrite IH, append_assoc. reflexivity.
Qed.

(** After the chunks and the 'end' event, the promise is what the 'end'
    listener makes of the whole body. *)
Lemma settle_received (status : Z) (chunks : list string) (later : list net_event) :
  settle (received status chunks later) = on_end status (body_of chunks) Pending.
Proof.
  unfold settle, received; simpl. rewrite events_data. simpl.
  rewrite events_settled; simpl; [reflexivity | apply on_end_settles].
Qed.

Lemma settle_failed (status : Z) (chunks : list string) (error : Error)
                    (later : list net_event) :
  settle (failed status chunks error later) = on_error error Pending.
Proof.
  unfold settle, failed; simpl. rewrite events_data. simpl.
  rewrite events_settled; reflexivity.
Qed.

Lemma settle_no_error (net : Exchange) : no_error_fulfilled (settle net) = true.
Proof. unfold settle. now apply events_no_error. Qed.

Lemma uploadImage_sent (this : ImageUploadService) (blob : File) (net : Exchange)
                       (url : URL) :
  URL_new (service_apiEndpoint this) = Ok url ->
  uploadImage this (Some blob) net =
    ([console_log "Uploading image...";
      https_request (options_of this url (payload_of blob)) (payload_of blob)],
     settle net).
Proof. intros H. unfold uploadImage. now rewrite H. Qed.

Lemma uploadImage_no_error (this : ImageUploadService) (blob : option File)
                           (net : Exchange) :
  no_error_fulfilled (snd (uploadImage this blob net)) = true.
Proof.
  unfold uploadImage. destruct blob as [blob|]; [|reflexivity].
  destruct (URL_new (service_apiEndpoint this)); [|reflexivity].
  apply settle_no_error.
Qed.



Lemma mentions_suffix (a b : string) :
  rejection_mentions (Rejected (VError (new_Error (a ++ b)))) b = true.
Proof. exact (includes_suffix a b). Qed.

(** The success path of the 'end' listener. *)
Lemma on_end_resolves (responseData : string) (json status_code image url : value) :
  JSON_parse responseData = Ok json ->
  Get json "status_code" = Ok status_code ->
  loose_eq_number status_code (Number.of_Z 200) = Ok true ->
  Get json "image" = Ok image ->
  Get image "url" = Ok url ->
  on_end 200 responseData Pending = Fulfilled url.
Proof.
  intros Hjson Hsc Heq Himg Hu. unfold on_end, try_body. simpl.
  rewrite Hjson; simpl. rewrite Hsc; simpl. rewrite Heq; simpl.
  rewrite Himg; simpl. rewrite Hu; simpl. reflexivity.
Qed.

(** C1. When the response has status 200 and its body is a JSON text
    whose [status_code] is the number 200 and whose [image.url] is a
    string, the promise of [uploadImage] is fulfilled with that string. *)
Theorem uploadImage_resolves_url
  (this : ImageUploadService) (blob : File) (endpoint : URL)
  (chunks : list string) (later : list net_event)
  (json image : value) (n : Number.number) (u : string) :
  URL_new (service_apiEndpoint this) = Ok endpoint ->
  JSON_parse (body_of chunks) = Ok json ->
  Get json "status_code" = Ok (VNum n) ->
  Number.equal n (Number.of_Z 200) = true ->
  Get json "image" = Ok image ->
  Get image "url" = Ok (VStr u) ->
  snd (uploadImage this (Some blob) (received 200 chunks later))
  = Fulfilled (VStr u).
Proof.
  intros Hurl Hjson Hsc Hn Himg Hu.
  rewrite (uploadImage_sent _ _ _ _ Hurl). simpl.
  rewrite settle_received.
  apply (on_end_resolves _ json (VNum n) image); try assumption.
  simpl. now rewrite Hn.
Qed.

(** C10. A [status_code] that is the string "200" passes the loose
    comparison with 200: with status 200 and a string [image.url], the
    promise is fulfilled with that URL. *)
Theorem uploadImage_accepts_string_status
  (this : ImageUploadService) (blob : File) (endpoint : URL)
  (chunks : list string) (later : list net_event)
  (json image : value) (u : string) :
  URL_new (service_apiEndpoint this) = Ok endpoint ->
  JSON_parse (body_of chunks) = Ok json ->
  Get json "status_code" = Ok (VStr "200") ->
  Get json "image" = Ok image ->
  Get image "url" = Ok (VStr u) ->
  snd (uploadImage this (Some blob) (received 200 chunks later))
  = Fulfilled (VStr u).
Proof.
  intros Hurl Hjson Hsc Himg Hu.
  rewrite (uploadImage_sent _ _ _ _ Hurl). simpl.
  rewrite settle_received.
  apply (on_end_resolves _ json (VStr "200") image); try assumption.
  vm_compute. reflexivity.
Qed.

(** C2, as the code has it.  With status 200: a body that is not a JSON
    text is rejected with the text of the parser's SyntaxError; a body
    whose [status_code] is not loosely equal to 200 is rejected with the
    raw body; a body that passes the comparison but whose [image] is
    absent or [null] is rejected with the text of the TypeError of the
    failed property read; so is the body [null], of which [status_code]
    cannot be read; and a [status_code] whose conversion for the
    comparison throws is rejected with the text of what it throws. *)
Theorem uploadImage_rejections_at_200
  (this : ImageUploadService) (blob : File) (endpoint : URL)
  (chunks : list string) (later : list net_event) :
  URL_new (service_apiEndpoint this) = Ok endpoint ->
  let p := snd (uploadImage this (Some blob) (received 200 chunks later)) in
  (forall e,
      JSON_parse (body_of chunks) = Throw e ->
      e = SyntaxError (body_of chunks) /\
      p = Rejected (VError (new_Error ("Error parsing response: " ++
                                       Error_toString e)))) /\
  (forall json status_code,
      JSON_parse (body_of chunks) = Ok json ->
      Get json "status_code" = Ok status_code ->
      loose_eq_number status_code (Number.of_Z 200) = Ok false ->
      p = Rejected (VError (new_Error ("Upload failed: " ++ body_of chunks))) /\
      rejection_mentions p (body_of chunks) = true) /\
  (forall json status_code image,
      JSON_parse (body_of chunks) = Ok json ->
      Get json "status_code" = Ok status_code ->
      loose_eq_number status_code (Number.of_Z 200) = Ok true ->
      Get json "image" = Ok image ->
      image = VUndefined \/ image = VNull ->
      p = Rejected (VError (new_Error
            ("Error parsing response: " ++
             Error_toString (TypeError (CannotRead image "url")))))) /\
  (JSON_parse (body_of chunks) = Ok VNull ->
   p = Rejected (VError (new_Error
         ("Error parsing response: " ++
          Error_toString (TypeError (CannotRead VNull "status_code")))))) /\
  (forall json status_code e,
      JSON_parse (body_of chunks) = Ok json ->
      Get json "status_code" = Ok status_code ->
      loose_eq_number status_code (Number.of_Z 200) = Throw e ->
      p = Rejected (VError (new_Error ("Error parsing response: " ++
                                       Error_toString e)))).
Proof.
  intros Hurl p. subst p.
  rewrite (uploadImage_sent _ _ _ _ Hurl). simpl.
  rewrite settle_received. unfold on_end, try_body. simpl.
  split; [|split; [|split; [|split]]].
  - intros e He. split; [now apply JSON_parse_throws in He|].
    rewrite He. reflexivity.
  - intros json status_code Hj Hs Hl.
    rewrite Hj; simpl. rewrite Hs; simpl. rewrite Hl.
    split; [reflexivity|].
    exact (mentions_suffix "Upload failed: " (body_of chunks)).
  - intros json status_code image Hj Hs Hl Hi Himage.
    rewrite Hj; simpl. rewrite Hs; simpl. rewrite Hl; simpl. rewrite Hi; simpl.
    destruct Himage as [-> | ->]; reflexivity.
  - intros Hj. rewrite Hj. reflexivity.
  - intros json status_code e Hj Hs Hl.
    rewrite Hj; simpl. rewrite Hs; simpl. rewrite Hl. reflexivity.
Qed.

(** C6. When the response ends with a status code other than 200, the
    promise is rejected with an [Error] whose message ends with that
    status code, whatever the body. *)
Theorem uploadImage_rejects_status
  (this : ImageUploadService) (blob : File) (endpoint : URL)
  (status : Z) (chunks : list string) (later : list net_event) :
  URL_new (service_apiEndpoint this) = Ok endpoint ->
  status <> 200%Z ->
  let p := snd (uploadImage this (Some blob) (received status chunks later)) in
  p = Rejected (VError (new_Error ("Upload failed with status: " ++
                                   Number.toString (Number.of_Z status)))) /\
  rejection_mentions p (Number.toString (Number.of_Z status)) = true.
Proof.
  intros Hurl Hs p. subst p.
  rewrite (uploadImage_sent _ _ _ _ Hurl). simpl.
  rewrite settle_received. unfold on_end.
  apply Z.eqb_neq in Hs. rewrite Hs. split; [reflexivity|].
  apply mentions_suffix.
Qed.

(** For a three-digit status the message ends with its decimal digits. *)
Lemma status_text (status : Z) :
  (100 <= status < 1000)%Z ->
  Number.toString (Number.of_Z status) = Number.digits_of (Z.to_N status).
Proof.
  intros H.
  assert (C : forallb (fun k => (Number.toString (Number.of_Z (Z.of_nat k))
                                 =? Number.digits_of (N.of_nat k))%string)
                      (seq 100 900) = true) by (vm_compute; reflexivity).
  rewrite forallb_forall in C.
  specialize (C (Z.to_nat status)).
  rewrite Z2Nat.id in C by lia.
  replace (N.of_nat (Z.to_nat status)) with (Z.to_N status) in C by lia.
  apply String.eqb_eq, C, in_seq. lia.
Qed.

(** As long as neither 'end' nor 'error' has fired the promise is
    pending. *)
Lemma events_unsettled (status : Z) (evs : list net_event) :
  existsb settles evs = false ->
  forall d, snd (fold_left (on_event status) evs (d, Pending)) = Pending.
Proof.
  induction evs as [|ev evs IH]; intros H d; [reflexivity|].
  destruct ev; cbn [existsb settles orb] in H; try discriminate;
    cbn [fold_left on_event fst snd]; now apply IH.
Qed.

(** C7, as the code has it.  When the request emits 'error' and neither
    'end' nor 'error' has fired before, the promise is rejected with an
    [Error] whose message ends with the text of the underlying error,
    whatever had been received and whatever fires later. *)
Theorem uploadImage_rejects_transport_error
  (this : ImageUploadService) (blob : File) (endpoint : URL)
  (status : Z) (before : list net_event) (error : Error) (later : list net_event) :
  URL_new (service_apiEndpoint this) = Ok endpoint ->
  existsb settles before = false ->
  let p := snd (uploadImage this (Some blob)
                  {| statusCode := status;
                     events := (before ++ req_error error :: later)%list |}) in
  p = Rejected (VError (new_Error ("Request error: " ++ Error_toString error))) /\
  rejection_mentions p (Error_toString error) = true.
Proof.
  intros Hurl Hbefore p. subst p.
  rewrite (uploadImage_sent _ _ _ _ Hurl). cbn [snd].
  unfold settle. cbn [statusCode events].
  rewrite fold_left_app. cbn [fold_left on_event].
  rewrite events_settled;
    cbn [snd]; rewrite (events_unsettled _ _ Hbefore); [|reflexivity].
  split; [reflexivity|]. apply mentions_suffix.
Qed.

(** C5. The one request [uploadImage] sends: its payload is one part
    named "source" with the blob's file name and MIME type, the blob's
    bytes and the closing delimiter; the Content-Type header names the
    fixed boundary, the X-API-Key header is the configured token, and
    Content-Length is the byte length of the payload, which is the blob's
    byte length plus the framing (164 bytes and the bytes of the file name
    and of the MIME type). *)
Theorem uploadImage_request
  (this : ImageUploadService) (blob : File) (net : Exchange) (endpoint : URL) :
  URL_new (service_apiEndpoint this) = Ok endpoint ->
  exists options payload,
    fst (uploadImage this (Some blob) net)
    = [console_log "Uploading image..."; https_request options payload] /\
    payload
    = (Buffer_from
         ("------WebKitFormBoundary7MA4YWxkTrZu0gW" ++ Str.CRLF ++
          "Content-Disposition: form-data; name=" ++ Str.dquote ++ "source" ++
          Str.dquote ++ "; filename=" ++ Str.dquote ++ name blob ++ Str.dquote ++
          Str.CRLF ++ "Content-Type: " ++ type blob ++ Str.CRLF ++ Str.CRLF)
       ++ arrayBuffer blob
       ++ Buffer_from (Str.CRLF ++ "------WebKitFormBoundary7MA4YWxkTrZu0gW--" ++
                       Str.CRLF))%list /\
    opt_method options = "POST" /\
    header "Content-Type" options
    = Some (HString "multipart/form-data; boundary=----WebKitFormBoundary7MA4YWxkTrZu0gW") /\
    header "X-API-Key" options = Some (HString (service_apiToken this)) /\
    header "Content-Length" options = Some (HNumber (List.length payload)) /\
    List.length payload
    = List.length (arrayBuffer blob) +
      (framing_overhead + String.length (name blob) + String.length (type blob)).
Proof.
  intros Hurl.
  exists (options_of this endpoint (payload_of blob)), (payload_of blob).
  rewrite (uploadImage_sent _ _ _ _ Hurl).
  repeat split.
  unfold payload_of, Buffer_from, part_header, closing.
  rewrite !length_app, !length_list_byte, !length_append.
  unfold framing_overhead. simpl. lia.
Qed.

End Uploader.

(** ** The paste handler *)

Section Handler.

Context {Editor : Type} {editor_api : EditorAPI Editor} {engine : Engine}.



(** One turn of the loop on an image item. *)
Lemma paste_items_image (this : PasteUploadPlugin) (item : DataTransferItem)
      (rest : list DataTransferItem) (net : list Exchange) (ws : Workspace Editor) :
  Str.startsWith (item_type item) "image" = true ->
  let call := uploadImage (imageUploadService this) (getAsFile item)
                          (hd silence net) in
  paste_items this (item :: rest) net ws =
  match snd call with
  | Pending =>
      {| emitted := preventDefault :: fst call; workspace := ws;
         result := Suspended |}
  | Rejected reason =>
      {| emitted := preventDefault :: fst call; workspace := ws;
         result := Abrupt reason |}
  | Fulfilled image_url =>
      let o1 := (if instanceof_Error image_url
                 then showError "Failed to upload image" image_url
                 else insert_image image_url) ws in
      match result o1 with
      | Normal _ =>
          let o2 := paste_items this rest (tl net) (workspace o1) in
          {| emitted := (preventDefault :: fst call ++ emitted o1 ++ emitted o2)%list;
             workspace := workspace o2; result := result o2 |}
      | Abrupt reason =>
          {| emitted := (preventDefault :: fst call ++ emitted o1)%list;
             workspace := workspace o1; result := Abrupt reason |}
      | Suspended =>
          {| emitted := (preventDefault :: fst call ++ emitted o1)%list;
             workspace := workspace o1; result := Suspended |}
      end
  end.
Proof.
  intros Himg call. simpl. rewrite Himg. fold call.
  unfold mbind, emit, await. simpl.
  destruct (snd call) as [|v|r]; simpl; rewrite ?app_nil_r; try reflexivity.
  destruct (result ((if instanceof_Error v
                     then showError "Failed to upload image" v
                     else insert_image v) ws)); reflexivity.
Qed.

Lemma paste_items_other (this : PasteUploadPlugin) (item : DataTransferItem)
      (rest : list DataTransferItem) (net : list Exchange) (ws : Workspace Editor) :
  Str.startsWith (item_type item) "image" = false ->
  paste_items this (item :: rest) net ws = paste_items this rest net ws.
Proof. intros H. simpl. now rewrite H. Qed.

Lemma outcome_eta {A : Type} (o : @outcome Editor A) :
  {| emitted := emitted o; workspace := workspace o; result := result o |} = o.
Proof. destruct o; reflexivity. Qed.

Lemma skipn_S_tl {A : Type} (n : nat) (l : list A) : skipn (S n) l = skipn n (tl l).
Proof. destruct l; simpl; [now destruct n | reflexivity]. Qed.

(** A run over [a ++ b] is a run over [a] followed, if it returns, by a run
    over [b] on the answers that are left. *)
Lemma paste_items_app (this : PasteUploadPlugin) (a b : list DataTransferItem) :
  forall (net : list Exchange) (ws : Workspace Editor),
    paste_items this (a ++ b)%list net ws =
    let o := paste_items this a net ws in
    match result o with
    | Normal _ =>
        let o' := paste_items this b (skipn (uploads_of a) net) (workspace o) in
        {| emitted := (emitted o ++ emitted o')%list;
           workspace := workspace o'; result := result o' |}
    | _ => o
    end.
Proof.
  induction a as [|i a IH]; intros net ws.
  - cbn. apply eq_sym, outcome_eta.
  - change ((i :: a) ++ b)%list with (i :: (a ++ b))%list.
    destruct (Str.startsWith (item_type i) "image") eqn:Himg.
    + rewrite !paste_items_image by exact Himg. cbv zeta.
      unfold uploads_of. cbn [filter]. rewrite Himg. cbn [List.length].
      fold (uploads_of a). rewrite skipn_S_tl.
      destruct (snd (uploadImage (imageUploadService this) (getAsFile i)
                                 (hd silence net))) as [|v|r]; try reflexivity.
      destruct (result ((if instanceof_Error v
                         then showError "Failed to upload image" v
                         else insert_image v) ws)) eqn:E1; try reflexivity.
      rewrite IH. cbv zeta. cbn [result emitted workspace].
      destruct (result (paste_items this a (tl net) _)) eqn:E2;
        cbn [result emitted workspace]; rewrite ?E2; try reflexivity.
      rewrite <- app_comm_cons, <- !app_assoc. reflexivity.
    + rewrite !paste_items_other by exact Himg.
      unfold uploads_of. cbn [filter]. rewrite Himg. fold (uploads_of a).
      apply IH.
Qed.


(** C8. With no active leaf, or an active leaf whose view is not a
    Markdown view, [insert_image] reports the error (on the console and as
    a notification) and leaves the whole workspace as it was. *)
Theorem insert_image_without_markdown_view
  (image_url : value) (ws : Workspace Editor) :
  activeLeaf ws = None \/ activeLeaf ws = Some {| view := OtherView |} ->
  insert_image image_url ws =
  {| emitted :=
       [console_error "Failed to insert image, no active Markdown view."
                      (VStr "No active Markdown view found");
        Notice "Failed to insert image, no active Markdown view."];
     workspace := ws;
     result := Normal tt |}.
Proof.
  intros [H | H]; unfold insert_image; rewrite H; reflexivity.
Qed.


End Handler.

(** * Further properties *)

(** ** The uploader *)

Section UploaderMore.

Context {engine : Engine}.
Import StrFacts JsonFacts.

(** X1. The first 'end' or 'error' decides: what fires later does not
    change the promise, and an 'error' of the request that fires before
    the response has ended gives the same rejection whatever status and
    data had arrived. *)
Theorem uploadImage_first_settlement_decides
  (this : ImageUploadService) (blob : option File) (status status' : Z)
  (chunks chunks' : list string) (error : Error) (later later' : list net_event) :
  snd (uploadImage this blob (received status chunks later))
  = snd (uploadImage this blob (received status chunks later')) /\
  snd (uploadImage this blob (failed status chunks error later))
  = snd (uploadImage this blob (failed status' chunks' error later')).
Proof.
  unfold uploadImage. destruct blob as [blob|]; [|split; reflexivity].
  destruct (URL_new (service_apiEndpoint this)); [|split; reflexivity].
  cbn [snd]. split.
  - rewrite !settle_received. reflexivity.
  - rewrite !settle_failed. reflexivity.
Qed.

Lemma events_pending (status : Z) (evs : list net_event) :
  forall d,
    is_settled (snd (fold_left (on_event status) evs (d, Pending)))
    = existsb settles evs.
Proof.
  induction evs as [|ev evs IH]; intros d; [reflexivity|].
  destruct ev; cbn [fold_left on_event fst snd existsb settles orb].
  - apply IH.
  - rewrite events_settled; cbn [snd]; apply on_end_settles.
  - rewrite events_settled; reflexivity.
  - apply IH.
Qed.

(** X2. No timeout: once the request is sent, the promise is settled
    exactly when an 'end' or an 'error' event fires; as long as only data
    arrives it stays pending. *)
Theorem uploadImage_settled_iff_end_or_error
  (this : ImageUploadService) (blob : File) (endpoint : URL) (net : Exchange) :
  URL_new (service_apiEndpoint this) = Ok endpoint ->
  is_settled (snd (uploadImage this (Some blob) net)) = existsb settles (events net).
Proof.
  intros Hurl. rewrite (uploadImage_sent _ _ _ _ Hurl). cbn [snd].
  unfold settle. apply events_pending.
Qed.

Lemma on_end_listed (status : Z) (d : string) (p : promise) :
  listed_rejection p -> listed_rejection (on_end status d p).
Proof.
  intros Hp. destruct p; try (rewrite on_end_settled; [exact Hp | reflexivity]).
  unfold on_end.
  destruct (status =? 200)%Z.
  - destruct (try_body d) as [k|e] eqn:E.
    + apply try_body_cases in E as [[v [_ [_ ->]]] | ->]; [exact I|].
      exists "Upload failed: ", d. split; [simpl; tauto | reflexivity].
    + exists "Error parsing response: ", (Error_toString e).
      split; [simpl; tauto | reflexivity].
  - exists "Upload failed with status: ", (Number.toString (Number.of_Z status)).
    split; [simpl; tauto | reflexivity].
Qed.

Lemma events_listed (status : Z) (evs : list net_event) (st : string * promise) :
  listed_rejection (snd st) ->
  listed_rejection (snd (fold_left (on_event status) evs st)).
Proof.
  revert st; induction evs as [|ev evs IH]; intros st Hst; simpl; [exact Hst|].
  apply IH. destruct ev; simpl.
  - exact Hst.
  - now apply on_end_listed.
  - destruct (snd st); simpl in *; try tauto.
    exists "Request error: ", (Error_toString error).
    split; [simpl; tauto | reflexivity].
  - exact Hst.
Qed.

(** X3. Whatever the network does once the request is sent, a rejection
    of [uploadImage] is an [Error] named "Error" whose message starts with
    'Upload failed with status: ', 'Upload failed: ',
    'Error parsing response: ' or 'Request error: '. *)
Theorem uploadImage_rejection_messages
  (this : ImageUploadService) (blob : File) (endpoint : URL) (net : Exchange)
  (reason : value) :
  URL_new (service_apiEndpoint this) = Ok endpoint ->
  snd (uploadImage this (Some blob) net) = Rejected reason ->
  exists message,
    reason = VError (new_Error message) /\
    existsb (Str.startsWith message) failure_prefixes = true.
Proof.
  intros Hurl H. rewrite (uploadImage_sent _ _ _ _ Hurl) in H. cbn [snd] in H.
  assert (L : listed_rejection (settle net))
    by (unfold settle; now apply events_listed).
  rewrite H in L. destruct L as (prefix & rest & Hin & ->).
  exists (prefix ++ rest). split; [reflexivity|].
  apply existsb_exists. exists prefix. split; [exact Hin|].
  apply startsWith_spec. now exists rest.
Qed.

(** X4. The blob's bytes are sent as they are: they are the bytes of the
    payload that follow the part header, and the payload ends with the
    closing delimiter. *)
Theorem payload_holds_blob (blob : File) :
  firstn (List.length (arrayBuffer blob)) (skipn (header_length blob) (payload_of blob))
  = arrayBuffer blob /\
  skipn (header_length blob + List.length (arrayBuffer blob)) (payload_of blob)
  = Buffer_from (Str.CRLF ++ "------WebKitFormBoundary7MA4YWxkTrZu0gW--" ++ Str.CRLF) /\
  List.length (payload_of blob)
  = header_length blob + List.length (arrayBuffer blob) + closing_length.
Proof.
  assert (Hh : List.length (Buffer_from (part_header blob)) = header_length blob).
  { unfold Buffer_from, part_header, header_length.
    rewrite length_list_byte, !length_append. simpl. lia. }
  unfold payload_of.
  set (h := Buffer_from (part_header blob)) in *.
  set (b := arrayBuffer blob). set (c := Buffer_from closing).
  assert (Hc : c = Buffer_from (Str.CRLF ++ "------WebKitFormBoundary7MA4YWxkTrZu0gW--"
                                ++ Str.CRLF)) by reflexivity.
  rewrite <- Hc, <- Hh. repeat split.
  - rewrite skipn_app, Nat.sub_diag, skipn_all. simpl.
    rewrite firstn_app, Nat.sub_diag, firstn_all. simpl. apply app_nil_r.
  - rewrite app_assoc, <- length_app, skipn_app, Nat.sub_diag, skipn_all.
    reflexivity.
  - rewrite !length_app. unfold closing_length. subst c. simpl. lia.
Qed.

(** X5. A body that passes the comparison and whose [image] is there but
    has no [url] is taken for a success: the promise is fulfilled with
    [undefined]. *)
Theorem uploadImage_missing_url_is_success
  (this : ImageUploadService) (blob : File) (endpoint : URL)
  (chunks : list string) (later : list net_event)
  (json status_code image : value) :
  URL_new (service_apiEndpoint this) = Ok endpoint ->
  JSON_parse (body_of chunks) = Ok json ->
  Get json "status_code" = Ok status_code ->
  loose_eq_number status_code (Number.of_Z 200) = Ok true ->
  Get json "image" = Ok image ->
  Get image "url" = Ok VUndefined ->
  snd (uploadImage this (Some blob) (received 200 chunks later))
  = Fulfilled VUndefined.
Proof.
  intros Hurl Hjson Hsc Heq Himg Hu.
  rewrite (uploadImage_sent _ _ _ _ Hurl). cbn [snd].
  rewrite settle_received.
  now apply (on_end_resolves _ json status_code image).
Qed.

End UploaderMore.

(** ** The paste handler *)

Section HandlerMore.

Context {Editor : Type} {editor_api : EditorAPI Editor} {engine : Engine}.

Lemma uploads_of_cons (item : DataTransferItem) (rest : list DataTransferItem) :
  uploads_of (item :: rest)
  = if is_image_item item then S (uploads_of rest) else uploads_of rest.
Proof.
  unfold uploads_of, is_image_item. cbn [filter].
  destruct (Str.startsWith (item_type item) "image"); reflexivity.
Qed.

Lemma filter_image_cons (item : DataTransferItem) (rest : list DataTransferItem) :
  filter is_image_item (item :: rest)
  = if is_image_item item then item :: filter is_image_item rest
    else filter is_image_item rest.
Proof. reflexivity. Qed.

Lemma paste_items_no_images (this : PasteUploadPlugin)
      (items : list DataTransferItem) (net : list Exchange) (ws : Workspace Editor) :
  uploads_of items = 0 ->
  paste_items this items net ws
  = {| emitted := []; workspace := ws; result := Normal tt |}.
Proof.
  induction items as [|item rest IH]; intros H; [reflexivity|].
  rewrite uploads_of_cons in H. unfold is_image_item in H.
  destruct (Str.startsWith (item_type item) "image") eqn:Himg; [discriminate|].
  rewrite paste_items_other by exact Himg. now apply IH.
Qed.

Lemma uploadImage_logs (this : ImageUploadService) (blob : option File)
                       (net : Exchange) :
  exists tail, fst (uploadImage this blob net)
               = console_log "Uploading image..." :: tail.
Proof.
  unfold uploadImage. destruct blob; [|eexists; reflexivity].
  destruct (URL_new (service_apiEndpoint this)); eexists; reflexivity.
Qed.

(** X6. A paste with no image item is left alone: nothing is emitted (the
    default paste is not prevented) and the workspace is untouched; with
    an image item the first things done are [preventDefault] and the log
    of the upload. *)
Theorem paste_handle_prevents_default_for_images
  (this : PasteUploadPlugin) (items : list DataTransferItem) (editor : Editor)
  (net : list Exchange) (ws : Workspace Editor) :
  (uploads_of items = 0 ->
   paste_handle this {| clipboardData := Some items |} editor net ws
   = {| emitted := []; workspace := ws; result := Normal tt |}) /\
  (uploads_of items <> 0 ->
   exists tail,
     emitted (paste_handle this {| clipboardData := Some items |} editor net ws)
     = preventDefault :: console_log "Uploading image..." :: tail).
Proof.
  unfold paste_handle. cbn [clipboardData]. split.
  - apply paste_items_no_images.
  - revert net ws. induction items as [|item rest IH]; intros net ws H;
      [now elim H|].
    destruct (Str.startsWith (item_type item) "image") eqn:Himg.
    + rewrite paste_items_image by exact Himg. cbv zeta.
      destruct (uploadImage_logs (imageUploadService this) (getAsFile item)
                                 (hd silence net)) as [tail Htail].
      destruct (snd (uploadImage (imageUploadService this) (getAsFile item)
                                 (hd silence net))) as [|v|r];
        try (cbn [emitted]; rewrite Htail; eexists; reflexivity).
      destruct (result ((if instanceof_Error v
                         then showError "Failed to upload image" v
                         else insert_image v) ws));
        cbn [emitted]; rewrite Htail; eexists; reflexivity.
    + rewrite paste_items_other by exact Himg. apply IH.
      rewrite uploads_of_cons in H. unfold is_image_item in H.
      now rewrite Himg in H.
Qed.

Lemma uploadImage_fulfilled_sent (this : ImageUploadService) (blob : option File)
                                 (net : Exchange) (v : value) :
  snd (uploadImage this blob net) = Fulfilled v ->
  exists f options,
    blob = Some f /\
    fst (uploadImage this blob net)
    = [console_log "Uploading image..."; https_request options (payload_of f)].
Proof.
  unfold uploadImage. destruct blob as [f|]; [|discriminate].
  destruct (URL_new (service_apiEndpoint this)) as [url|]; [|discriminate].
  intros _. now exists f, (options_of this url (payload_of f)).
Qed.

Lemma nth_S_tl {A : Type} (k : nat) (l : list A) (d : A) :
  nth (S k) l d = nth k (tl l) d.
Proof. destruct l; [now destruct k | reflexivity]. Qed.

Lemma nth_0_hd {A : Type} (l : list A) (d : A) : nth 0 l d = hd d l.
Proof. now destruct l. Qed.

Lemma with_active_editor_same (ws : Workspace Editor) (ed : Editor) :
  activeLeaf ws = Some {| view := MarkdownView ed |} ->
  with_active_editor ws ed = ws.
Proof. destruct ws; simpl; intros ->; reflexivity. Qed.

Lemma insert_image_string (u : string) (ws : Workspace Editor) (ed : Editor) :
  activeLeaf ws = Some {| view := MarkdownView ed |} ->
  insert_image (VStr u) ws
  = {| emitted := [];
       workspace := with_active_editor ws
                      (replaceRange ("![](" ++ u ++ ")") (getCursor ed) ed);
       result := Normal tt |}.
Proof. intros H. unfold insert_image. rewrite H. reflexivity. Qed.

Lemma insert_image_reports_missing_view (v : value) (ws : Workspace Editor) :
  activeLeaf ws = None \/ activeLeaf ws = Some {| view := OtherView |} ->
  insert_image v ws
  = {| emitted :=
         [console_error "Failed to insert image, no active Markdown view."
                        (VStr "No active Markdown view found");
          Notice "Failed to insert image, no active Markdown view."];
       workspace := ws;
       result := Normal tt |}.
Proof. intros [H | H]; unfold insert_image; rewrite H; reflexivity. Qed.

(** X7. When every upload is answered with a URL and a Markdown view is
    active, the handler returns, shows nothing, has sent one request for
    each image item, in clipboard order, and has put the links at the
    cursor one after the other. *)
Theorem paste_handle_inserts_every_link
  (this : PasteUploadPlugin) (items : list DataTransferItem) (editor : Editor)
  (net : list Exchange) (ws : Workspace Editor) (ed : Editor) (urls : list string) :
  activeLeaf ws = Some {| view := MarkdownView ed |} ->
  List.length urls = uploads_of items ->
  (forall k item,
      nth_error (filter is_image_item items) k = Some item ->
      exists u,
        nth_error urls k = Some u /\
        snd (uploadImage (imageUploadService this) (getAsFile item)
                         (nth k net silence)) = Fulfilled (VStr u)) ->
  let o := paste_handle this {| clipboardData := Some items |} editor net ws in
  result o = Normal tt /\
  workspace o = with_active_editor ws (insert_links urls ed) /\
  notices (emitted o) = [] /\
  requests (emitted o) = map payload_of (files_of (filter is_image_item items)).
Proof.
  unfold paste_handle. cbn [clipboardData]. cbv zeta.
  revert net ws ed urls.
  induction items as [|item rest IH]; intros net ws ed urls Hws Hlen Hup.
  - destruct urls; [|discriminate]. cbn.
    rewrite with_active_editor_same by exact Hws. repeat split.
  - rewrite uploads_of_cons in Hlen. rewrite filter_image_cons in *.
    unfold is_image_item in *.
    destruct (Str.startsWith (item_type item) "image") eqn:Himg.
    + destruct urls as [|u urls]; [discriminate|].
      destruct (Hup 0 item eq_refl) as (u0 & Hu0 & Hcall).
      inversion Hu0; subst u0. rewrite nth_0_hd in Hcall.
      destruct (uploadImage_fulfilled_sent _ _ _ _ Hcall) as (f & options & Hf & Hsent).
      destruct (IH (tl net)
                   (with_active_editor ws
                      (replaceRange ("![](" ++ u ++ ")") (getCursor ed) ed))
                   (replaceRange ("![](" ++ u ++ ")") (getCursor ed) ed) urls)
        as (Hres & Hwork & Hnot & Hreq).
      * reflexivity.
      * simpl in Hlen. lia.
      * intros k item' Hk. destruct (Hup (S k) item' Hk) as (u' & Hu' & Hc').
        exists u'. split; [exact Hu'|]. now rewrite <- nth_S_tl.
      * rewrite paste_items_image by exact Himg. cbv zeta.
        rewrite Hcall. cbn [instanceof_Error].
        rewrite (insert_image_string u ws ed Hws).
        cbn [result emitted workspace app].
        rewrite Hres, Hwork, Hsent.
        change (preventDefault :: ?l) with ([preventDefault] ++ l)%list.
        unfold notices, requests, files_of in *.
        rewrite !flat_map_app, Hnot, Hreq. cbn [flat_map]. rewrite Hf.
        repeat split.
    + rewrite paste_items_other by exact Himg.
      now apply IH.
Qed.

(** X8. When the uploads succeed and no Markdown view is active, the
    handler still goes through every image item: it sends a request and
    shows 'Failed to insert image, no active Markdown view.' for each,
    changes nothing and returns. *)
Theorem paste_handle_without_markdown_view
  (this : PasteUploadPlugin) (items : list DataTransferItem) (editor : Editor)
  (net : list Exchange) (ws : Workspace Editor) :
  activeLeaf ws = None \/ activeLeaf ws = Some {| view := OtherView |} ->
  (forall k item,
      nth_error (filter is_image_item items) k = Some item ->
      exists v,
        snd (uploadImage (imageUploadService this) (getAsFile item)
                         (nth k net silence)) = Fulfilled v) ->
  let o := paste_handle this {| clipboardData := Some items |} editor net ws in
  result o = Normal tt /\
  workspace o = ws /\
  notices (emitted o)
  = repeat "Failed to insert image, no active Markdown view." (uploads_of items) /\
  requests (emitted o) = map payload_of (files_of (filter is_image_item items)).
Proof.
  intros Hws. unfold paste_handle. cbn [clipboardData]. cbv zeta.
  revert net.
  induction items as [|item rest IH]; intros net Hup.
  - cbn. repeat split.
  - rewrite uploads_of_cons. rewrite filter_image_cons in *.
    unfold is_image_item in *.
    destruct (Str.startsWith (item_type item) "image") eqn:Himg.
    + destruct (Hup 0 item eq_refl) as (v & Hcall).
      rewrite nth_0_hd in Hcall.
      destruct (uploadImage_fulfilled_sent _ _ _ _ Hcall) as (f & options & Hf & Hsent).
      pose proof (uploadImage_no_error (imageUploadService this) (getAsFile item)
                                       (hd silence net)) as Hv.
      rewrite Hcall in Hv.
      assert (Hinst : instanceof_Error v = false)
        by (destruct v; simpl in *; congruence).
      destruct (IH (tl net)) as (Hres & Hwork & Hnot & Hreq).
      * intros k item' Hk. destruct (Hup (S k) item' Hk) as (v' & Hc').
        exists v'. now rewrite <- nth_S_tl.
      * rewrite paste_items_image by exact Himg. cbv zeta.
        rewrite Hcall, Hinst.
        rewrite (insert_image_reports_missing_view v ws Hws).
        cbn [result emitted workspace].
        rewrite Hres, Hwork, Hsent.
        change (preventDefault :: ?l) with ([preventDefault] ++ l)%list.
        unfold notices, requests, files_of in *.
        rewrite !flat_map_app, Hnot, Hreq. cbn [flat_map]. rewrite Hf.
        repeat split.
    + rewrite paste_items_other by exact Himg.
      now apply IH.
Qed.

Lemma uploadImage_requests (this : ImageUploadService) (blob : option File)
                           (net : Exchange) :
  (requests (fst (uploadImage this blob net)) = [] /\
   exists e, snd (uploadImage this blob net) = Rejected (VError e)) \/
  (exists f, blob = Some f /\
             requests (fst (uploadImage this blob net)) = [payload_of f]).
Proof.
  unfold uploadImage. destruct blob as [f|].
  - destruct (URL_new (service_apiEndpoint this)) as [url|e].
    + right. now exists f.
    + left. split; [reflexivity | now exists e].
  - left. split; [reflexivity | eexists; reflexivity].
Qed.

Lemma requests_app (a b : list effect) :
  requests (a ++ b)%list = (requests a ++ requests b)%list.
Proof. apply flat_map_app. Qed.

Lemma insert_or_report_requests (v : value) (ws : Workspace Editor) :
  requests (emitted ((if instanceof_Error v
                      then showError "Failed to upload image" v
                      else insert_image v) ws)) = [].
Proof.
  destruct (instanceof_Error v); [reflexivity|].
  unfold insert_image.
  destruct (activeLeaf ws) as [[[ed|]]|]; try reflexivity.
  destruct (ToString v); reflexivity.
Qed.

(** X9. Whatever the network and the workspace do, the requests a paste
    sends are for image items that have a file, in clipboard order and
    with none skipped: they are a first part of the payloads of those
    items.  No other item is ever uploaded. *)
Theorem paste_handle_uploads_in_order
  (this : PasteUploadPlugin) (items : list DataTransferItem) (editor : Editor)
  (net : list Exchange) (ws : Workspace Editor) :
  exists n,
    requests (emitted (paste_handle this {| clipboardData := Some items |}
                                    editor net ws))
    = firstn n (map payload_of (files_of (filter is_image_item items))).
Proof.
  unfold paste_handle. cbn [clipboardData].
  revert net ws. induction items as [|item rest IH]; intros net ws.
  - exists 0. reflexivity.
  - rewrite filter_image_cons. unfold is_image_item.
    destruct (Str.startsWith (item_type item) "image") eqn:Himg.
    + rewrite paste_items_image by exact Himg. cbv zeta.
      pose proof (insert_or_report_requests) as Hins.
      destruct (uploadImage_requests (imageUploadService this) (getAsFile item)
                                     (hd silence net))
        as [[Hnone [e He]] | [f [Hf Hone]]].
      * rewrite He. cbn [emitted].
        change (preventDefault :: ?l) with ([preventDefault] ++ l)%list.
        rewrite requests_app, Hnone. exists 0. reflexivity.
      * unfold files_of. cbn [flat_map]. rewrite Hf in *. cbn [app map].
        fold (files_of (filter is_image_item rest)).
        destruct (snd (uploadImage (imageUploadService this) (Some f)
                                   (hd silence net))) as [|v|r]; cbn [emitted];
          try (change (preventDefault :: ?l) with ([preventDefault] ++ l)%list;
               rewrite requests_app, Hone; exists 1; reflexivity).
        specialize (Hins v ws).
        destruct (result ((if instanceof_Error v
                           then showError "Failed to upload image" v
                           else insert_image v) ws)) eqn:E; cbn [emitted];
          change (preventDefault :: ?l) with ([preventDefault] ++ l)%list;
          rewrite !requests_app, Hone, Hins;
          try (exists 1; reflexivity).
        destruct (IH (tl net)
                     (workspace ((if instanceof_Error v
                                  then showError "Failed to upload image" v
                                  else insert_image v) ws))) as [n Hn].
        rewrite Hn. exists (S n). reflexivity.
    + rewrite paste_items_other by exact Himg. apply IH.
Qed.

(** X10. An image item that has no file, or an endpoint that [new URL]
    refuses, makes the paste fail before anything is sent: the default
    paste is prevented, the upload is logged, no request goes out, nothing
    is shown or inserted, and the handler is rejected with the TypeError. *)
Theorem paste_handle_nothing_to_send
  (this : PasteUploadPlugin) (before rest : list DataTransferItem)
  (item : DataTransferItem) (editor : Editor)
  (net : list Exchange) (ws : Workspace Editor) (reason : Error) :
  uploads_of before = 0 ->
  is_image_item item = true ->
  (getAsFile item = None /\ reason = TypeError (CannotRead VNull "arrayBuffer")) \/
  (getAsFile item <> None /\
   URL_new (service_apiEndpoint (imageUploadService this)) = Throw reason) ->
  paste_handle this {| clipboardData := Some (before ++ item :: rest)%list |}
               editor net ws
  = {| emitted := [preventDefault; console_log "Uploading image..."];
       workspace := ws;
       result := Abrupt (VError reason) |}.
Proof.
  intros Hbefore Himg Hcase. unfold paste_handle. cbn [clipboardData].
  rewrite paste_items_app. cbv zeta.
  rewrite (paste_items_no_images this before net ws Hbefore).
  cbn [result emitted workspace app]. rewrite Hbefore. cbn [skipn].
  rewrite paste_items_image by exact Himg. cbv zeta.
  unfold uploadImage.
  destruct Hcase as [[Hnone ->] | [Hsome Hurl]].
  - rewrite Hnone. reflexivity.
  - destruct (getAsFile item) as [f|]; [|now elim Hsome].
    rewrite Hurl. reflexivity.
Qed.

(** X11. An upload that is never settled blocks the paste for good: the
    handler stays suspended on it, the items that follow are never looked
    at, and what was emitted and changed is what the items before did,
    plus [preventDefault] and the effects of that one call. *)
Theorem paste_handle_waits_for_upload
  (this : PasteUploadPlugin) (before rest : list DataTransferItem)
  (item : DataTransferItem) (editor : Editor)
  (net : list Exchange) (ws : Workspace Editor) :
  result (paste_items this before net ws) = Normal tt ->
  is_image_item item = true ->
  snd (uploadImage (imageUploadService this) (getAsFile item)
                   (hd silence (skipn (uploads_of before) net))) = Pending ->
  let o := paste_handle this
             {| clipboardData := Some (before ++ item :: rest)%list |}
             editor net ws in
  let o0 := paste_items this before net ws in
  result o = Suspended /\
  workspace o = workspace o0 /\
  emitted o
  = (emitted o0 ++
     preventDefault ::
     fst (uploadImage (imageUploadService this) (getAsFile item)
                      (hd silence (skipn (uploads_of before) net))))%list.
Proof.
  intros Hbefore Himg Hpending o o0. subst o o0.
  unfold paste_handle. cbn [clipboardData].
  rewrite paste_items_app. cbv zeta. rewrite Hbefore.
  rewrite paste_items_image by exact Himg. cbv zeta.
  rewrite Hpending. repeat split.
Qed.

(** X14. When the handler returns, every image item has been uploaded:
    each had a file, and the requests sent are the payloads of all of them,
    in clipboard order. *)
Theorem paste_handle_returns_after_every_upload
  (this : PasteUploadPlugin) (items : list DataTransferItem) (editor : Editor)
  (net : list Exchange) (ws : Workspace Editor) :
  result (paste_handle this {| clipboardData := Some items |} editor net ws)
  = Normal tt ->
  requests (emitted (paste_handle this {| clipboardData := Some items |}
                                  editor net ws))
  = map payload_of (files_of (filter is_image_item items)) /\
  List.length (files_of (filter is_image_item items)) = uploads_of items.
Proof.
  unfold paste_handle. cbn [clipboardData].
  revert net ws. induction items as [|item rest IH]; intros net ws H.
  - split; reflexivity.
  - rewrite uploads_of_cons, filter_image_cons. unfold is_image_item.
    destruct (Str.startsWith (item_type item) "image") eqn:Himg.
    + rewrite paste_items_image in * by exact Himg. cbv zeta in *.
      destruct (snd (uploadImage (imageUploadService this) (getAsFile item)
                                 (hd silence net))) as [|v|r] eqn:Hcall;
        try discriminate.
      destruct (uploadImage_fulfilled_sent _ _ _ _ Hcall)
        as (f & options & Hf & Hsent).
      pose proof (insert_or_report_requests v ws) as Hins.
      destruct (result ((if instanceof_Error v
                         then showError "Failed to upload image" v
                         else insert_image v) ws)) eqn:E; try discriminate.
      cbn [result emitted] in *.
      destruct (IH _ _ H) as [Hreq Hlen].
      change (preventDefault :: ?l) with ([preventDefault] ++ l)%list.
      rewrite !requests_app, Hins, Hreq, Hsent.
      unfold files_of in *. cbn [flat_map]. rewrite Hf.
      split; [reflexivity | simpl; f_equal; exact Hlen].
    + rewrite paste_items_other in * by exact Himg. now apply IH.
Qed.

Lemma paste_items_service (a b : PasteUploadPlugin) (items : list DataTransferItem) :
  imageUploadService a = imageUploadService b ->
  forall (net : list Exchange) (ws : Workspace Editor),
    paste_items a items net ws = paste_items b items net ws.
Proof.
  intros H. induction items as [|item rest IH]; intros net ws; [reflexivity|].
  destruct (Str.startsWith (item_type item) "image") eqn:Himg.
  - rewrite !paste_items_image by exact Himg. cbv zeta. rewrite H.
    destruct (snd (uploadImage (imageUploadService b) (getAsFile item)
                               (hd silence net))); try reflexivity.
    destruct (result ((if instanceof_Error v
                       then showError "Failed to upload image" v
                       else insert_image v) ws)); try reflexivity.
    rewrite IH. reflexivity.
  - rewrite !paste_items_other by exact Himg. apply IH.
Qed.

(** X13. A change made in the settings tab is saved at once but reaches
    the uploader only at the next load: the running plugin handles every
    paste as before the change, and the plugin loaded from the saved file
    uploads with the new value (and the other setting as it was). *)
Theorem settings_change_needs_reload (this : PasteUploadPlugin) (value : string) :
  (forall evt (editor : Editor) net ws,
      paste_handle (fst (onChange_apiToken value this)) evt editor net ws
      = paste_handle this evt editor net ws) /\
  (forall evt (editor : Editor) net ws,
      paste_handle (fst (onChange_apiEndpoint value this)) evt editor net ws
      = paste_handle this evt editor net ws) /\
  apiToken (settings (fst (onChange_apiToken value this))) = value /\
  apiEndpoint (settings (fst (onChange_apiEndpoint value this))) = value /\
  imageUploadService (onload (snd (onChange_apiToken value this)))
  = new_ImageUploadService (apiEndpoint (settings this)) value /\
  imageUploadService (onload (snd (onChange_apiEndpoint value this)))
  = new_ImageUploadService value (apiToken (settings this)).
Proof.
  repeat split;
    intros evt editor net ws; unfold paste_handle;
    destruct (clipboardData evt); try reflexivity;
    now apply paste_items_service.
Qed.

End HandlerMore.

(** ** Examples on the sample engine and editor *)

Import Sample.

(** The example of the specification: the body
    [{"status_code":200,"image":{"url":"https://x/y.png"}}]. *)
Lemma uploadImage_resolves_url_witness :
  snd (uploadImage service (Some (png "a.png")) (received 200 [good_body] []))
  = Fulfilled (VStr "https://x/y.png").
Proof.
  apply (uploadImage_resolves_url service (png "a.png") endpoint [good_body] []
           good_json (VObj [("url", VStr "https://x/y.png")])
           (Number.Dec 200 0) "https://x/y.png");
    vm_compute; reflexivity.
Defined.

Lemma uploadImage_accepts_string_status_witness :
  snd (uploadImage service (Some (png "a.png"))
         (received 200 [string_status_body] []))
  = Fulfilled (VStr "https://x/y.png").
Proof.
  apply (uploadImage_accepts_string_status service (png "a.png") endpoint
           [string_status_body] [] string_status_json
           (VObj [("url", VStr "https://x/y.png")]) "https://x/y.png");
    vm_compute; reflexivity.
Defined.

(** C2, as stated, fails: the body [{"status_code":200}] comes with status
    200 and lacks the nested URL, and the rejection it gets does not
    contain the raw body. *)
Lemma missing_image_rejection_hides_body :
  JSON_parse no_image_body = Ok (VObj [("status_code", VNum (Number.Dec 200 0))]) /\
  snd (uploadImage service (Some (png "a.png")) (received 200 [no_image_body] []))
  = Rejected (VError (new_Error
      "Error parsing response: TypeError: Cannot read properties of undefined (reading 'url')")) /\
  rejection_mentions
    (snd (uploadImage service (Some (png "a.png")) (received 200 [no_image_body] [])))
    no_image_body = false.
Proof. vm_compute. repeat split. Qed.

(** With an [image] object that has no [url], the promise is even
    fulfilled, with [undefined], and the handler inserts a link to
    "undefined". *)
Lemma missing_url_fulfils_undefined :
  snd (uploadImage service (Some (png "a.png")) (received 200 [no_url_body] []))
  = Fulfilled VUndefined /\
  workspace (paste_handle plugin
               {| clipboardData := Some [image_item (png "a.png")] |}
               {| text := "hello"; cursor := 0 |}
               [response 200 no_url_body] (note "hello"))
  = note "![](undefined)hello".
Proof. vm_compute. split; reflexivity. Qed.

Lemma uploadImage_rejections_at_200_witness :
  snd (uploadImage service (Some (png "a.png")) (received 200 ["not json"] []))
  = Rejected (VError (new_Error
      "Error parsing response: SyntaxError: Unexpected token in JSON")) /\
  snd (uploadImage service (Some (png "a.png")) (received 200 [status_500_body] []))
  = Rejected (VError (new_Error ("Upload failed: " ++ status_500_body))) /\
  snd (uploadImage service (Some (png "a.png")) (received 200 [null_image_body] []))
  = Rejected (VError (new_Error
      "Error parsing response: TypeError: Cannot read properties of null (reading 'url')")) /\
  snd (uploadImage service (Some (png "a.png")) (received 200 [null_body] []))
  = Rejected (VError (new_Error
      "Error parsing response: TypeError: Cannot read properties of null (reading 'status_code')")) /\
  snd (uploadImage service (Some (png "a.png")) (received 200 [object_status_body] []))
  = Rejected (VError (new_Error
      "Error parsing response: TypeError: Cannot convert object to primitive value")).
Proof.
  split; [|split; [|split; [|split]]].
  - pose proof (uploadImage_rejections_at_200 service (png "a.png") endpoint
                  ["not json"] [] eq_refl) as H.
    cbv zeta in H. destruct H as [H _].
    refine (proj2 (H (SyntaxError "not json") _)).
    vm_compute; reflexivity.
  - pose proof (uploadImage_rejections_at_200 service (png "a.png") endpoint
                  [status_500_body] [] eq_refl) as H.
    cbv zeta in H. destruct H as [_ [H _]].
    refine (proj1 (H (VObj [("status_code", VNum (Number.Dec 500 0))])
                     (VNum (Number.Dec 500 0)) _ _ _));
      vm_compute; reflexivity.
  - pose proof (uploadImage_rejections_at_200 service (png "a.png") endpoint
                  [null_image_body] [] eq_refl) as H.
    cbv zeta in H. destruct H as [_ [_ [H _]]].
    refine (H (VObj [("status_code", VNum (Number.Dec 200 0)); ("image", VNull)])
              (VNum (Number.Dec 200 0)) VNull _ _ _ _ (or_intror eq_refl));
      vm_compute; reflexivity.
  - pose proof (uploadImage_rejections_at_200 service (png "a.png") endpoint
                  [null_body] [] eq_refl) as H.
    cbv zeta in H. destruct H as [_ [_ [_ [H _]]]].
    refine (H _). vm_compute; reflexivity.
  - pose proof (uploadImage_rejections_at_200 service (png "a.png") endpoint
                  [object_status_body] [] eq_refl) as H.
    cbv zeta in H. destruct H as [_ [_ [_ [_ H]]]].
    refine (H (VObj [("status_code", VObj [("toString", VNum (Number.Dec 1 0))])])
              (VObj [("toString", VNum (Number.Dec 1 0))])
              (TypeError CannotConvert) _ _ _);
      vm_compute; reflexivity.
Defined.

(** A [status_code] that rounds to the double 200 passes the comparison. *)
Lemma rounded_status_code_fulfils :
  snd (uploadImage service (Some (png "a.png")) (received 200 [long_status_body] []))
  = Fulfilled (VStr "https://x/y.png").
Proof. vm_compute. reflexivity. Qed.

(** The example of the specification: status 403. *)
Lemma uploadImage_rejects_status_witness :
  snd (uploadImage service (Some (png "a.png")) (received 403 ["Forbidden"] []))
  = Rejected (VError (new_Error "Upload failed with status: 403")) /\
  rejection_mentions
    (snd (uploadImage service (Some (png "a.png")) (received 403 ["Forbidden"] [])))
    "403" = true.
Proof.
  apply (uploadImage_rejects_status service (png "a.png") endpoint 403
           ["Forbidden"] []); [reflexivity | lia].
Defined.

(** C7, as stated, fails: when the connection is lost after a part of
    the response has arrived, no listener of the code fires and the
    promise is never settled, so no failure is yielded. *)
Lemma connection_lost_leaves_promise_pending :
  snd (uploadImage service (Some (png "a.png")) connection_lost) = Pending /\
  result (paste_handle plugin
            {| clipboardData := Some [image_item (png "a.png")] |}
            {| text := "hello"; cursor := 0 |}
            [connection_lost] (note "hello"))
  = Suspended.
Proof. vm_compute. split; reflexivity. Qed.

(** The connection is refused, and it is reset after some data. *)
Lemma uploadImage_rejects_transport_error_witness :
  (snd (uploadImage service (Some (png "a.png"))
          {| statusCode := 0; events := [req_error refused] |})
   = Rejected (VError (new_Error
       "Request error: Error: connect ECONNREFUSED 127.0.0.1:443")) /\
   rejection_mentions
     (snd (uploadImage service (Some (png "a.png"))
             {| statusCode := 0; events := [req_error refused] |}))
     "Error: connect ECONNREFUSED 127.0.0.1:443" = true) /\
  snd (uploadImage service (Some (png "a.png"))
         {| statusCode := 200;
            events := [res_data "{"; res_aborted; req_error refused; res_end] |})
  = Rejected (VError (new_Error
      "Request error: Error: connect ECONNREFUSED 127.0.0.1:443")).
Proof.
  split.
  - apply (uploadImage_rejects_transport_error service (png "a.png") endpoint 0
             [] refused []); reflexivity.
  - apply (uploadImage_rejects_transport_error service (png "a.png") endpoint 200
             [res_data "{"; res_aborted] refused [res_end]); reflexivity.
Defined.

(** A four-byte blob named a.png of type image/png: 182 bytes are sent. *)
Lemma uploadImage_request_witness :
  exists options payload,
    fst (uploadImage service (Some (png "a.png")) silence)
    = [console_log "Uploading image..."; https_request options payload] /\
    header "X-API-Key" options = Some (HString "secret") /\
    header "Content-Length" options = Some (HNumber 182).
Proof.
  assert (Hurl : URL_new (service_apiEndpoint service) = Ok endpoint)
    by (vm_compute; reflexivity).
  destruct (uploadImage_request service (png "a.png") silence endpoint Hurl)
    as (options & payload & Hsent & _ & _ & _ & Hkey & Hlen & Hsize).
  exists options, payload. split; [exact Hsent|]. split; [exact Hkey|].
  rewrite Hlen, Hsize. reflexivity.
Defined.

Lemma insert_image_without_markdown_view_witness :
  notices (emitted (insert_image (VStr "https://x/y.png") no_leaf))
  = ["Failed to insert image, no active Markdown view."] /\
  workspace (insert_image (VStr "https://x/y.png") no_leaf) = no_leaf.
Proof.
  rewrite (insert_image_without_markdown_view (VStr "https://x/y.png") no_leaf
             (or_introl eq_refl)).
  split; reflexivity.
Defined.


(** C3 on the code: one pasted image whose upload is answered 403.  The
    request is sent, the handler is rejected with the upload's error, no
    notification is shown and the document is untouched. *)
Theorem paste_handle_failed_upload_is_silent :
  requests (emitted paste_one_403) = [payload_of (png "a.png")] /\
  notices (emitted paste_one_403) = [] /\
  workspace paste_one_403 = note "hello" /\
  result paste_one_403
  = Abrupt (VError (new_Error "Upload failed with status: 403")).
Proof. vm_compute. repeat split. Qed.

(** C4 on the code: two images and a text item are pasted, the first
    upload is answered with a URL and the second 403.  Two requests are
    sent, in clipboard order, and none for the text item; one link is
    inserted; no notification is shown, and the handler is rejected. *)
Theorem paste_handle_two_images_second_fails :
  requests (emitted paste_two_second_403)
  = [payload_of (png "a.png"); payload_of (png "b.png")] /\
  workspace paste_two_second_403 = note "![](https://x/y.png)hello" /\
  notices (emitted paste_two_second_403) = [] /\
  result paste_two_second_403
  = Abrupt (VError (new_Error "Upload failed with status: 403")).
Proof. vm_compute. repeat split. Qed.

(** ** Further examples *)

Import SampleRuns.

(** An 'error' after the end changes nothing. *)
Lemma uploadImage_first_settlement_decides_witness :
  snd (uploadImage service (Some (png "a.png"))
         (received 200 [first_half; second_half] [req_error refused]))
  = snd (uploadImage service (Some (png "a.png"))
           (received 200 [first_half; second_half] [])).
Proof.
  exact (proj1 (uploadImage_first_settlement_decides service (Some (png "a.png"))
                  200 200 [first_half; second_half] [] refused
                  [req_error refused] [])).
Defined.

Lemma uploadImage_settled_iff_end_or_error_witness :
  is_settled (snd (uploadImage service (Some (png "a.png")) stalled)) = false /\
  is_settled (snd (uploadImage service (Some (png "a.png"))
                     (response 403 "Forbidden"))) = true.
Proof.
  assert (Hurl : URL_new (service_apiEndpoint service) = Ok endpoint)
    by (vm_compute; reflexivity).
  rewrite !(uploadImage_settled_iff_end_or_error service (png "a.png") endpoint _ Hurl).
  split; reflexivity.
Defined.

Lemma uploadImage_rejection_messages_witness :
  exists message,
    VError (new_Error "Upload failed with status: 403")
    = VError (new_Error message) /\
    existsb (Str.startsWith message) failure_prefixes = true.
Proof.
  apply (uploadImage_rejection_messages service (png "a.png") endpoint
           (response 403 "Forbidden"));
    vm_compute; reflexivity.
Defined.

Lemma uploadImage_missing_url_is_success_witness :
  snd (uploadImage service (Some (png "a.png")) (received 200 [no_url_body] []))
  = Fulfilled VUndefined.
Proof.
  apply (uploadImage_missing_url_is_success service (png "a.png") endpoint
           [no_url_body] [] no_url_json (VNum (Number.Dec 200 0)) (VObj []));
    vm_compute; reflexivity.
Defined.

Lemma paste_handle_prevents_default_for_images_witness :
  paste_handle plugin {| clipboardData := Some [text_item] |} editor_hello
               [] (note "hello")
  = {| emitted := []; workspace := note "hello"; result := Normal tt |} /\
  exists tail,
    emitted (paste_handle plugin {| clipboardData := Some three_items |}
                          editor_hello two_answers (note "hello"))
    = preventDefault :: console_log "Uploading image..." :: tail.
Proof.
  split.
  - apply (proj1 (paste_handle_prevents_default_for_images plugin [text_item]
                    editor_hello [] (note "hello"))).
    reflexivity.
  - apply (proj2 (paste_handle_prevents_default_for_images plugin three_items
                    editor_hello two_answers (note "hello"))).
    vm_compute. discriminate.
Defined.

Lemma two_answers_fulfil :
  forall k item,
    nth_error (filter is_image_item three_items) k = Some item ->
    exists u,
      nth_error ["https://x/y.png"; "https://x/z.png"] k = Some u /\
      snd (uploadImage (imageUploadService plugin) (getAsFile item)
                       (nth k two_answers silence)) = Fulfilled (VStr u).
Proof.
  intros [|[|k]] item H; cbn in H.
  - inversion H; subst. eexists. split; [reflexivity | vm_compute; reflexivity].
  - inversion H; subst. eexists. split; [reflexivity | vm_compute; reflexivity].
  - destruct k; discriminate.
Defined.

(** Two images and a text item, both uploads answered with a URL: the
    sample editor keeps its cursor in front, so the second link lands
    before the first. *)
Lemma paste_handle_inserts_every_link_witness :
  result (paste_handle plugin {| clipboardData := Some three_items |}
                       editor_hello two_answers (note "hello")) = Normal tt /\
  workspace (paste_handle plugin {| clipboardData := Some three_items |}
                          editor_hello two_answers (note "hello"))
  = note "![](https://x/z.png)![](https://x/y.png)hello".
Proof.
  destruct (paste_handle_inserts_every_link plugin three_items editor_hello
              two_answers (note "hello") editor_hello
              ["https://x/y.png"; "https://x/z.png"]
              eq_refl eq_refl two_answers_fulfil)
    as (Hres & Hwork & _ & _).
  split; [exact Hres|]. refine (eq_trans Hwork _). vm_compute. reflexivity.
Defined.

Lemma paste_handle_without_markdown_view_witness :
  notices (emitted (paste_handle plugin {| clipboardData := Some three_items |}
                                 editor_hello two_answers other_view))
  = ["Failed to insert image, no active Markdown view.";
     "Failed to insert image, no active Markdown view."] /\
  workspace (paste_handle plugin {| clipboardData := Some three_items |}
                          editor_hello two_answers other_view) = other_view.
Proof.
  destruct (paste_handle_without_markdown_view plugin three_items editor_hello
              two_answers other_view (or_intror eq_refl))
    as (_ & Hwork & Hnot & _).
  - intros k item H. destruct (two_answers_fulfil k item H) as (u & _ & Hu).
    now exists (VStr u).
  - split; [exact Hnot | exact Hwork].
Defined.

Lemma paste_handle_nothing_to_send_witness :
  paste_handle misconfigured
               {| clipboardData := Some [text_item; image_item (png "a.png")] |}
               editor_hello [response 200 good_body] (note "hello")
  = {| emitted := [preventDefault; console_log "Uploading image..."];
       workspace := note "hello";
       result := Abrupt (VError (mkError "TypeError" "Invalid URL")) |}.
Proof.
  apply (paste_handle_nothing_to_send misconfigured [text_item] []
           (image_item (png "a.png")) editor_hello [response 200 good_body]
           (note "hello") (mkError "TypeError" "Invalid URL"));
    try reflexivity.
  right. split; [discriminate | vm_compute; reflexivity].
Defined.

Lemma paste_handle_waits_for_upload_witness :
  result (paste_handle plugin
            {| clipboardData :=
                 Some [text_item; image_item (png "a.png"); image_item (png "b.png")] |}
            editor_hello [stalled; response 200 good_body] (note "hello"))
  = Suspended /\
  workspace (paste_handle plugin
               {| clipboardData :=
                    Some [text_item; image_item (png "a.png"); image_item (png "b.png")] |}
               editor_hello [stalled; response 200 good_body] (note "hello"))
  = note "hello".
Proof.
  destruct (paste_handle_waits_for_upload plugin [text_item]
              [image_item (png "b.png")] (image_item (png "a.png")) editor_hello
              [stalled; response 200 good_body] (note "hello"))
    as (Hres & Hwork & _); try (vm_compute; reflexivity).
  split; [exact Hres | exact Hwork].
Defined.

Lemma paste_handle_returns_after_every_upload_witness :
  requests (emitted (paste_handle plugin {| clipboardData := Some three_items |}
                                  editor_hello two_answers (note "hello")))
  = [payload_of (png "a.png"); payload_of (png "b.png")].
Proof.
  assert (H : result (paste_handle plugin {| clipboardData := Some three_items |}
                                   editor_hello two_answers (note "hello"))
              = Normal tt) by (vm_compute; reflexivity).
  exact (proj1 (paste_handle_returns_after_every_upload plugin three_items
                  editor_hello two_answers (note "hello") H)).
Defined.
